(** * circus: configuration snapshot, pub/sub consumer and Windows share shim

    A shallow embedding of three modules of the circus process supervisor:

    - [circus/config.py]: [watcher_defaults], [DefaultConfigParser],
      [rlimit_value], [expand_vars] and [get_config];
    - [circus/consumer.py]: [CircusConsumer] ([iter_messages], [stop]);
    - [circus/share.py]: the Windows replacement [os_open].

    Python values are an inductive type, dictionaries are finite maps with
    string keys, exceptions are explicit results, and the objects that the
    code mutates through several names (the watcher dictionaries held both
    in [watchers] and in [watchers_map]) live in an explicit store. *)

From Stdlib Require Import ZArith QArith Ascii String List Permutation Lia.
From stdpp Require Import base option list strings gmap fin_maps.

Set Warnings "-register-all,-clear-no-such-hyp".
#[local] Open Scope string_scope.
#[local] Open Scope Z_scope.

(** ** Python strings *)

Module PyStr.

(** [s.startswith(p)] *)
Definition startswith (p s : string) : bool := String.prefix p s.

(** [s[n:]] *)
Fixpoint drop (n : nat) (s : string) : string :=
  match n, s with
  | O, _ => s
  | S _, EmptyString => EmptyString
  | S k, String _ t => drop k t
  end.

Definition rev_string (l : list ascii) : string :=
  string_of_list_ascii (List.rev l).

(** [s.split(sep, maxsplit)] for a non-empty [sep], scanning left to
    right: [skip] counts the characters of a separator still to be
    swallowed, [cur] is the current piece (reversed), [budget] the
    number of cuts still allowed ([None] for no limit). *)
Fixpoint split_go (sep : string) (budget : option nat) (skip : nat)
    (cur : list ascii) (s : string) : list string :=
  match s with
  | EmptyString => [rev_string cur]
  | String c t =>
      match skip with
      | S k => split_go sep budget k cur t
      | O =>
          let cut := match budget with Some O => false | _ => String.prefix sep s end in
          if cut
          then rev_string cur ::
               split_go sep (pred <$> budget) (String.length sep - 1) [] t
          else split_go sep budget 0 (c :: cur) t
      end
  end.

Definition split (sep : string) (maxsplit : option nat) (s : string) : list string :=
  split_go sep maxsplit 0 [] s.

(** ASCII white space, the characters [str.strip()] removes. *)
Definition is_space (c : ascii) : bool :=
  let n := nat_of_ascii c in
  ((9 <=? n) && (n <=? 13))%nat || (n =? 32)%nat.

Fixpoint lstrip (s : string) : string :=
  match s with
  | String c t => if is_space c then lstrip t else s
  | EmptyString => EmptyString
  end.

Definition rstrip (s : string) : string :=
  string_of_list_ascii
    (List.rev (list_ascii_of_string (lstrip (rev_string (list_ascii_of_string s))))).

(** [s.strip()] *)
Definition strip (s : string) : string := rstrip (lstrip s).

Definition lower_ascii (c : ascii) : ascii :=
  let n := nat_of_ascii c in
  if ((65 <=? n) && (n <=? 90))%nat then ascii_of_nat (n + 32) else c.

(** [s.lower()] on ASCII text *)
Fixpoint lower (s : string) : string :=
  match s with
  | EmptyString => EmptyString
  | String c t => String (lower_ascii c) (lower t)
  end.

End PyStr.

(** ** Python values *)

(** The values a snapshot holds.  A float is represented by the rational
    it denotes; a dictionary has string keys, as every dictionary of the
    snapshot does. *)
Inductive value : Type :=
| VNone
| VBool (b : bool)
| VInt (n : Z)
| VFloat (q : Q)
| VStr (s : string)
| VList (l : list value)
| VDict (d : gmap string value).

Abbreviation dict := (gmap string value).

(** [dict.update(other)]: the entries of [other] win. *)
Definition dict_update (d other : dict) : dict := other ∪ d.

(** [dict(pairs)] for a list of string pairs: a later pair wins. *)
Definition dict_of_items (l : list (string * string)) : dict :=
  foldl (fun m kv => <[kv.1 := VStr kv.2]> m) ∅ l.

(** Python truth of a value, as [if v:] and [not v] test it. *)
Definition truthy (v : value) : bool :=
  match v with
  | VNone => false
  | VBool b => b
  | VInt n => negb (n =? 0)
  | VFloat q => negb (Qeq_bool q 0)
  | VStr s => negb (String.eqb s "")
  | VList l => negb (Nat.eqb (List.length l) 0)
  | VDict d => negb (bool_decide (d = ∅))
  end.

(** ** Exceptions and warnings *)

Inductive exn : Type :=
| ValueError
| KeyError
| TypeError
| IndexError
| AttributeError
| NotImplementedError
| NoSectionError
| NoOptionError.

Inductive warning : Type :=
| DeprecationWarning (msg : string)
| ImportWarning (msg : string).

Inductive result (A : Type) : Type :=
| Ok (a : A)
| Raise (e : exn).
Arguments Ok {A} a.
Arguments Raise {A} e.

(** A computation ends with a value or an exception, and emits warnings
    on the way (also before it raises). *)
Definition M (A : Type) : Type := (result A * list warning)%type.

Definition ret {A} (a : A) : M A := (Ok a, []).
Definition raise {A} (e : exn) : M A := (Raise e, []).
Definition warn (x : warning) : M unit := (Ok tt, [x]).
Definition bind {A B} (m : M A) (f : A -> M B) : M B :=
  match m with
  | (Ok a, w) => let r := f a in (r.1, (w ++ r.2)%list)
  | (Raise e, w) => (Raise e, w)
  end.

Declare Scope py_scope.
Delimit Scope py_scope with py.
Notation "'do' x <- m ; k" := (bind m (fun x => k))
  (at level 10, x pattern, m at level 100, k at level 200,
   format "'[v' 'do'  x  <-  m ; '/' k ']'") : py_scope.
Notation "m ;; k" := (bind m (fun _ => k))
  (at level 100, k at level 200, right associativity) : py_scope.
#[local] Open Scope py_scope.

(** Whether a computation ends with a value. *)
Definition returns {A} (m : M A) : bool :=
  match m with
  | (Ok _, _) => true
  | (Raise _, _) => false
  end.

(** [of_option e o]: the value of [o], or the exception [e]. *)
Definition of_option {A} (e : exn) (o : option A) : M A :=
  match o with Some a => ret a | None => raise e end.

(** A loop [for x in l: acc = body(acc, x)] whose body may raise. *)
Fixpoint foldM {A B} (body : A -> B -> M A) (acc : A) (l : list B) : M A :=
  match l with
  | [] => ret acc
  | x :: t => do acc' <- body acc x; foldM body acc' t
  end.

(** A list comprehension whose element expression may raise. *)
Fixpoint mapM {A B} (f : A -> M B) (l : list A) : M (list B) :=
  match l with
  | [] => ret []
  | x :: t => do y <- f x; do ys <- mapM f t; ret (y :: ys)
  end.

(** ** circus/config.py *)

Module Config.

(** The [type] argument of [_dget]: [str], [int], [bool], [float], or
    any other type object. *)
Inductive pytype : Type := TStr | TInt | TBool | TFloat | TOther.

(** What [config.py] imports and the sources at hand do not hold: the
    helpers of [circus.util] and [circus.py3compat], and the functions
    and constants of the Python library it calls.  A helper that raises
    [ValueError] on a string returns [None] here. *)
Record Externals : Type := {
  (* circus.util *)
  replace_gnu_args : string -> dict -> string;
  to_bool : string -> option bool;
  to_signum : string -> option Z;
  papa : bool;
  DEFAULT_ENDPOINT_DEALER : string;
  DEFAULT_ENDPOINT_SUB : string;
  DEFAULT_ENDPOINT_MULTICAST : string;
  DEFAULT_ENDPOINT_STATS : string;
  (* circus.py3compat: sorts a list of dictionaries in place; it sees an
     element only through the dictionary it is *)
  sort_by_field : forall A : Type, (A -> dict) -> list A -> list A;
  (* Python: int(s), int(s, 8), float(s), fnmatch.fnmatch(name, pat) *)
  py_int : string -> option Z;
  py_int8 : string -> option Z;
  py_float : string -> option Q;
  fnmatch : string -> string -> bool;
  (* resource.RLIM_INFINITY, or None where [import resource] fails *)
  resource : option Z;
  SIGTERM : Z
}.

(** The sections of a parsed file in file order, each with its options
    in order, as [StrictConfigParser.items] lists them. *)
Abbreviation file := (list (string * list (string * string))).

Record DefaultConfigParser : Type := {
  data : file;
  _env : dict
}.

Section WithExternals.

Variable X : Externals.

(** [watcher_defaults()]; every call builds fresh dictionaries. *)
Definition watcher_defaults : dict :=
  list_to_map
    [ ("name", VStr ""); ("cmd", VStr ""); ("args", VStr "");
      ("numprocesses", VInt 1); ("warmup_delay", VInt 0);
      ("executable", VNone); ("working_dir", VNone);
      ("shell", VBool false); ("uid", VNone); ("gid", VNone);
      ("send_hup", VBool false); ("stop_signal", VInt (SIGTERM X));
      ("stop_children", VBool false); ("max_retry", VInt 5);
      ("graceful_timeout", VInt 30); ("rlimits", VDict ∅);
      ("stderr_stream", VDict ∅); ("stdout_stream", VDict ∅);
      ("priority", VInt 0); ("use_sockets", VBool false);
      ("singleton", VBool false); ("copy_env", VBool false);
      ("copy_path", VBool false); ("hooks", VDict ∅);
      ("respawn", VBool true); ("autostart", VBool true);
      ("use_papa", VBool false) ].

(** *** DefaultConfigParser *)

(** [DefaultConfigParser()] followed by [read_file] and the includes:
    the parser holds the parsed sections and a copy of [os.environ]. *)
Definition read_config (environ : gmap string string) (f : file)
    : DefaultConfigParser :=
  {| data := f; _env := VStr <$> environ |}.

Definition set_env (cfg : DefaultConfigParser) (env : dict)
    : DefaultConfigParser :=
  {| data := data cfg; _env := env |}.

Definition sections (cfg : DefaultConfigParser) : list string :=
  (data cfg).*1.

Definition section_options (cfg : DefaultConfigParser) (section : string)
    : option (list (string * string)) :=
  snd <$> List.find (fun s => String.eqb s.1 section) (data cfg).

Definition option_value (its : list (string * string)) (opt : string)
    : option string :=
  snd <$> List.find (fun kv => String.eqb kv.1 opt) its.

Definition has_option (cfg : DefaultConfigParser) (section opt : string)
    : bool :=
  match section_options cfg section with
  | Some its => bool_decide (is_Some (option_value its opt))
  | None => false
  end.

(** [get]: the parser's value, passed through [replace_gnu_args]. *)
Definition get (cfg : DefaultConfigParser) (section opt : string)
    : M string :=
  do its <- of_option NoSectionError (section_options cfg section);
  do res <- of_option NoOptionError (option_value its opt);
  ret (replace_gnu_args X res (_env cfg)).

Definition items (cfg : DefaultConfigParser) (section : string)
    (noreplace : bool) : M (list (string * string)) :=
  do its <- of_option NoSectionError (section_options cfg section);
  if noreplace then ret its
  else ret (List.map (fun kv => (kv.1, replace_gnu_args X kv.2 (_env cfg))) its).

Definition _dget (v : option string) (default : value) (ty : pytype)
    : M value :=
  match v with
  | None => ret default
  | Some s =>
      match ty with
      | TInt => do n <- of_option ValueError (py_int X s); ret (VInt n)
      | TBool => do b <- of_option ValueError (to_bool X s); ret (VBool b)
      | TFloat => do q <- of_option ValueError (py_float X s); ret (VFloat q)
      | TStr => ret (VStr s)
      | TOther => raise NotImplementedError
      end
  end.

Definition dget (cfg : DefaultConfigParser) (section opt : string)
    (default : value) (ty : pytype) : M value :=
  if negb (has_option cfg section opt) then ret default
  else do s <- get cfg section opt; _dget (Some s) default ty.

(** *** rlimit_value and expand_vars *)

Definition rlimit_value (val : option string) : M value :=
  match resource X, val with
  | Some inf, None => ret (VInt inf)
  | Some inf, Some "" => ret (VInt inf)
  | _, Some s => do n <- of_option ValueError (py_int X s); ret (VInt n)
  | None, None => raise TypeError
  end.

Fixpoint expand_vars (v : value) (env : dict) : value :=
  match v with
  | VStr s => VStr (replace_gnu_args X s env)
  | VDict d => VDict ((fun x => expand_vars x env) <$> d)
  | VList l => VList ((fun x => expand_vars x env) <$> l)
  | _ => v
  end.


(** *** get_config *)

(** Lines 157-167: the global environment is [os.environ] updated with
    the [env] section, the local one is the [env] section alone. *)
Definition load_env (environ : gmap string string)
    (cfg : DefaultConfigParser) : M (dict * dict) :=
  let global_env : dict := VStr <$> environ in
  let local_env : dict := ∅ in
  if bool_decide ("env" ∈ sections cfg) then
    do its <- items cfg "env" false;
    let local_env := dict_update local_env (dict_of_items its) in
    let global_env := dict_update global_env local_env in
    ret (global_env, local_env)
  else ret (global_env, local_env).

(** Lines 169-202: the main circus options. *)
Definition circus_options (cfg : DefaultConfigParser) (config : dict)
    : M dict :=
  do v <- dget cfg "circus" "check_delay" (VFloat 5) TFloat;
  let config := <["check_delay" := v]> config in
  do v <- dget cfg "circus" "endpoint" (VStr (DEFAULT_ENDPOINT_DEALER X)) TStr;
  let config := <["endpoint" := v]> config in
  do v <- dget cfg "circus" "endpoint_owner" VNone TStr;
  let config := <["endpoint_owner" := v]> config in
  do v <- dget cfg "circus" "pubsub_endpoint" (VStr (DEFAULT_ENDPOINT_SUB X)) TStr;
  let config := <["pubsub_endpoint" := v]> config in
  do v <- dget cfg "circus" "multicast_endpoint"
            (VStr (DEFAULT_ENDPOINT_MULTICAST X)) TStr;
  let config := <["multicast_endpoint" := v]> config in
  do stats_endpoint <- dget cfg "circus" "stats_endpoint" VNone TStr;
  let config := <["stats_endpoint" := stats_endpoint]> config in
  do statsd <- dget cfg "circus" "statsd" (VBool false) TBool;
  let config := <["statsd" := statsd]> config in
  do umask <- dget cfg "circus" "umask" VNone TStr;
  let config := <["umask" := umask]> config in
  do config <-
    (if truthy umask then
       match umask with
       | VStr s => do n <- of_option ValueError (py_int8 X s);
                   ret (<["umask" := VInt n]> config)
       | _ => raise TypeError
       end
     else ret config);
  do config <-
    (match stats_endpoint with
     | VNone => ret (<["stats_endpoint" := VStr (DEFAULT_ENDPOINT_STATS X)]> config)
     | _ =>
         if negb (truthy statsd) then
           warn (DeprecationWarning
             "You defined a stats_endpoint without setting up statsd to True.");;
           ret (<["statsd" := VBool true]> config)
         else ret config
     end);
  do v <- dget cfg "circus" "warmup_delay" (VInt 0) TInt;
  let config := <["warmup_delay" := v]> config in
  do v <- dget cfg "circus" "httpd" (VBool false) TBool;
  let config := <["httpd" := v]> config in
  do v <- dget cfg "circus" "httpd_host" (VStr "localhost") TStr;
  let config := <["httpd_host" := v]> config in
  do v <- dget cfg "circus" "httpd_port" (VInt 8080) TInt;
  let config := <["httpd_port" := v]> config in
  do v <- dget cfg "circus" "debug" (VBool false) TBool;
  let config := <["debug" := v]> config in
  do v <- dget cfg "circus" "debug_gc" (VBool false) TBool;
  let config := <["debug_gc" := v]> config in
  do v <- dget cfg "circus" "pidfile" VNone TStr;
  let config := <["pidfile" := v]> config in
  do v <- dget cfg "circus" "loglevel" VNone TStr;
  let config := <["loglevel" := v]> config in
  do v <- dget cfg "circus" "logoutput" VNone TStr;
  let config := <["logoutput" := v]> config in
  do v <- dget cfg "circus" "loggerconfig" VNone TStr;
  let config := <["loggerconfig" := v]> config in
  do v <- dget cfg "circus" "fqdn_prefix" VNone TStr;
  let config := <["fqdn_prefix" := v]> config in
  do v <- dget cfg "circus" "papa_endpoint" VNone TStr;
  let config := <["papa_endpoint" := v]> config in
  ret config.

(** The lists and the map that lines 205-208 initialise.  A watcher
    dictionary is one object reached both from the list [watchers]
    and from [watchers_map]: the map is the store, indexed by the
    section name (unique in a parsed file), and the list holds the
    section names as references into it. *)
Record managed : Type := {
  watchers : list string;
  watchers_map : gmap string dict;
  plugins : list dict;
  sockets : list dict
}.

Definition managed_init : managed :=
  {| watchers := []; watchers_map := ∅; plugins := []; sockets := [] |}.

(** The object a reference of [watchers] stands for. *)
Definition deref (store : gmap string dict) (r : string) : dict :=
  default ∅ (store !! r).

(** [list(section_items.keys()) in [[], ['__name__']]] *)
Definition is_empty_section (section_items : dict) : bool :=
  bool_decide (dom section_items = ∅)
  || bool_decide (dom section_items = {["__name__"]}).

(** [l[i]] for a list of strings *)
Definition index (l : list string) (i : nat) : M string :=
  of_option IndexError (l !! i).

(** Lines 210-240: the body of the first loop over the sections. *)
Definition scan_section (cfg : DefaultConfigParser)
    (global_env local_env : dict) (st : managed) (section : string)
    : M managed :=
  do its <- items cfg section false;
  let section_items := dict_of_items its in
  if is_empty_section section_items then ret st
  else
    do st <-
      (if PyStr.startswith "socket:" section then
         let sock := section_items in
         let sock :=
           <["name" := VStr (PyStr.lower
               (List.last (PyStr.split "socket:" None section) ""))]> sock in
         do v <- dget cfg section "so_reuseport" (VBool false) TBool;
         let sock := <["so_reuseport" := v]> sock in
         do v <- dget cfg section "replace" (VBool false) TBool;
         let sock := <["replace" := v]> sock in
         ret {| watchers := watchers st; watchers_map := watchers_map st;
                plugins := plugins st; sockets := sockets st ++ [sock] |}
       else ret st);
    do st <-
      (if PyStr.startswith "plugin:" section then
         let plugin := section_items in
         let plugin := <["name" := VStr section]> plugin in
         do plugin <-
           (match plugin !! "priority" with
            | Some (VStr s) =>
                do n <- of_option ValueError (py_int X s);
                ret (<["priority" := VInt n]> plugin)
            | Some _ => raise TypeError
            | None => ret plugin
            end);
         ret {| watchers := watchers st; watchers_map := watchers_map st;
                plugins := plugins st ++ [plugin]; sockets := sockets st |}
       else ret st);
    if PyStr.startswith "watcher:" section then
      let watcher := watcher_defaults in
      do name <- index (PyStr.split "watcher:" (Some 1%nat) section) 1;
      let watcher := <["name" := VStr name]> watcher in
      do copy_env <- dget cfg section "copy_env" (VBool false) TBool;
      let watcher := <["copy_env" := copy_env]> watcher in
      let watcher :=
        if truthy copy_env then <["env" := VDict global_env]> watcher
        else <["env" := VDict local_env]> watcher in
      ret {| watchers := watchers st ++ [section];
             watchers_map := <[section := watcher]> (watchers_map st);
             plugins := plugins st; sockets := sockets st |}
    else ret st.


(** A list comprehension [[x for x in l if p(x)]] whose test may raise. *)
Fixpoint filterM {A} (p : A -> M bool) (l : list A) : M (list A) :=
  match l with
  | [] => ret []
  | x :: t =>
      do b <- p x; do r <- filterM p t; ret (if b then x :: r else r)
  end.

(** [w['name']] as the first argument of [fnmatch] *)
Definition watcher_name (store : gmap string dict) (r : string) : M string :=
  match deref store r !! "name" with
  | Some (VStr n) => ret n
  | Some _ => raise TypeError
  | None => raise KeyError
  end.

(** [watcher['env'].update(env_items)] on the object behind [r] *)
Definition update_watcher_env (env_items : dict)
    (store : gmap string dict) (r : string) : M (gmap string dict) :=
  let w := deref store r in
  match w !! "env" with
  | Some (VDict e) =>
      ret (<[r := <["env" := VDict (dict_update e env_items)]> w]> store)
  | Some _ => raise AttributeError
  | None => raise KeyError
  end.

(** Lines 254-258: one pattern of an [env:] section. *)
Definition apply_env_pattern (ws : list string) (env_items : dict)
    (store : gmap string dict) (pattern : string) : M (gmap string dict) :=
  do matched <-
    filterM (fun r => do n <- watcher_name store r; ret (fnmatch X n pattern)) ws;
  foldM (update_watcher_env env_items) store matched.

(** Lines 248-258: the body of the loop over the [env:] sections. *)
Definition env_section (cfg : DefaultConfigParser) (ws : list string)
    (store : gmap string dict) (section : string) : M (gmap string dict) :=
  if PyStr.startswith "env:" section then
    do section_elements <- index (PyStr.split "env:" (Some 1%nat) section) 1;
    let watcher_patterns :=
      List.map PyStr.strip (PyStr.split "," None section_elements) in
    do its <- items cfg section true;
    let env_items := dict_of_items its in
    foldM (apply_env_pattern ws env_items) store watcher_patterns
  else ret store.

(** [x in (a, b, ...)] and [x == a] on strings *)
Definition is_in (x : string) (l : list string) : bool :=
  existsb (String.eqb x) l.

(** [watcher[key][sub] = v]: the entry under [key] must be there and
    be a dictionary. *)
Definition set_sub (watcher : dict) (key sub : string) (v : value) : M dict :=
  match watcher !! key with
  | Some (VDict d) => ret (<[key := VDict (<[sub := v]> d)]> watcher)
  | Some _ => raise TypeError
  | None => raise KeyError
  end.

(** Lines 269-322: one option of a watcher section.  The [use_papa]
    test falls through to the later tests when the value is false. *)
Definition apply_option (cfg_env : dict) (watcher : dict)
    (kv : string * string) : M dict :=
  let opt := kv.1 in
  match expand_vars (VStr kv.2) cfg_env with
  | VStr val =>
      let later : M dict :=
        if PyStr.startswith "hooks." opt then
          let hook_name := PyStr.drop (String.length "hooks.") opt in
          match List.map PyStr.strip (PyStr.split "," (Some 1%nat) val) with
          | [target] =>
              set_sub watcher "hooks" hook_name (VList [VStr target; VBool false])
          | target :: flag :: more =>
              do b <- of_option ValueError (to_bool X flag);
              set_sub watcher "hooks" hook_name
                (VList (VStr target :: VBool b :: List.map VStr more))
          | [] => raise IndexError
          end
        else if is_in opt ["check_flapping"; "respawn"; "autostart";
                           "close_child_stdin"] then
          do v <- _dget (Some val) (VBool true) TBool;
          ret (<[opt := v]> watcher)
        else ret (<[opt := VStr val]> watcher) in
      if is_in opt ["cmd"; "args"; "working_dir"; "uid"; "gid"] then
        ret (<[opt := VStr val]> watcher)
      else if String.eqb opt "numprocesses" then
        do v <- _dget (Some val) (VInt 1) TInt;
        ret (<["numprocesses" := v]> watcher)
      else if String.eqb opt "warmup_delay" then
        do v <- _dget (Some val) (VInt 0) TInt;
        ret (<["warmup_delay" := v]> watcher)
      else if String.eqb opt "executable" then
        do v <- _dget (Some val) VNone TStr;
        ret (<["executable" := v]> watcher)
      else if is_in opt ["shell"; "send_hup"; "stop_children";
                         "close_child_stderr"; "use_sockets"; "singleton";
                         "copy_env"; "copy_path"; "close_child_stdout"] then
        do v <- _dget (Some val) (VBool false) TBool;
        ret (<[opt := v]> watcher)
      else if String.eqb opt "stop_signal" then
        do n <- of_option ValueError (to_signum X val);
        ret (<["stop_signal" := VInt n]> watcher)
      else if String.eqb opt "max_retry" then
        do v <- _dget (Some val) (VInt 5) TInt;
        ret (<["max_retry" := v]> watcher)
      else if String.eqb opt "graceful_timeout" then
        do v <- _dget (Some val) (VInt 30) TInt;
        ret (<["graceful_timeout" := v]> watcher)
      else if PyStr.startswith "stderr_stream" opt
              || PyStr.startswith "stdout_stream" opt then
        match PyStr.split "." (Some 1%nat) opt with
        | [stream_name; stream_opt] =>
            set_sub watcher stream_name stream_opt (VStr val)
        | _ => raise ValueError
        end
      else if PyStr.startswith "rlimit_" opt then
        let limit := PyStr.drop 7 opt in
        do v <- rlimit_value (Some val);
        set_sub watcher "rlimits" limit v
      else if String.eqb opt "priority" then
        do v <- _dget (Some val) (VInt 0) TInt;
        ret (<["priority" := v]> watcher)
      else if String.eqb opt "use_papa" then
        do b <- _dget (Some val) (VBool false) TBool;
        if truthy b then
          if papa X then ret (<["use_papa" := VBool true]> watcher)
          else
            warn (ImportWarning
              "Config file says use_papa but the papa module is missing.");;
            ret watcher
        else later
      else later
  | _ => raise TypeError
  end.

(** Lines 261-322: the body of the second loop over the sections. *)
Definition configure_watcher (cfg : DefaultConfigParser) (global_env : dict)
    (store : gmap string dict) (section : string) : M (gmap string dict) :=
  if PyStr.startswith "watcher:" section then
    do watcher <- of_option KeyError (store !! section);
    let env := global_env in
    do wenv <-
      (match watcher !! "env" with
       | Some (VDict e) => ret e
       | Some _ => raise TypeError
       | None => raise KeyError
       end);
    let env := dict_update env wenv in
    do its <- items cfg section true;
    do watcher <- foldM (apply_option env) watcher its;
    ret (<[section := watcher]> store)
  else ret store.

(** [get_config] on a file that exists and parses; [environ] is
    [os.environ].  The result is the snapshot [config]. *)
Definition get_config (environ : gmap string string) (f : file) : M dict :=
  let cfg := read_config environ f in
  let config : dict := ∅ in
  do ge_le <- load_env environ cfg;
  let global_env := ge_le.1 in
  let local_env := ge_le.2 in
  let cfg := set_env cfg global_env in
  do config <- circus_options cfg config;
  do st <- foldM (scan_section cfg global_env local_env) managed_init
             (sections cfg);
  let ws := sort_by_field X _ (deref (watchers_map st)) (watchers st) in
  let ps := sort_by_field X _ id (plugins st) in
  let ss := sort_by_field X _ id (sockets st) in
  do store <- foldM (env_section cfg ws) (watchers_map st) (sections cfg);
  do store <- foldM (configure_watcher cfg global_env) store (sections cfg);
  let config := <["watchers" := VList (VDict <$> (deref store <$> ws))]> config in
  let config := <["plugins" := VList (VDict <$> ps)]> config in
  let config := <["sockets" := VList (VDict <$> ss)]> config in
  ret config.

End WithExternals.

End Config.

(** A result with the exceptions of another module: the value, or the
    exception raised. *)
Abbreviation result_of E A := (sum A E).

(** ** circus/consumer.py *)

Module Consumer.

(** [errno.EINTR] *)
Definition EINTR : Z := 4.

Inductive exn : Type :=
| ZMQError (errno : Z)
| ValueError.

(** What the consumer can observe of zmq: whether the context it uses
    has been destroyed, and the state of its SUB socket. *)
Record zmq : Type := {
  context_destroyed : bool;
  socket_closed : bool;
  connected : option string;
  subscribed : list string
}.

(** The fields of a [CircusConsumer] that the methods read. *)
Record CircusConsumer : Type := {
  topics : list string;
  keep_context : bool;
  endpoint : string;
  timeout : Q
}.

(** [__init__]: [context] is [Some z] when the caller supplies a
    context (in the state [z]) and [None] otherwise, in which case
    [_init_context] creates one.  The SUB socket is created on the
    context, connected to the endpoint and subscribed to each topic. *)
Definition init (topics : list string) (context : option zmq)
    (endpoint : string) (timeout : Q) : CircusConsumer * zmq :=
  let keep := match context with Some _ => true | None => false end in
  let z := match context with
           | Some z => z
           | None => {| context_destroyed := false; socket_closed := false;
                        connected := None; subscribed := [] |}
           end in
  ({| topics := topics; keep_context := keep; endpoint := endpoint;
      timeout := timeout |},
   {| context_destroyed := context_destroyed z; socket_closed := false;
      connected := Some endpoint; subscribed := topics |}).

(** The state of zmq after a successful [context.destroy(0)]. *)
Definition destroyed (z : zmq) : zmq :=
  {| context_destroyed := true; socket_closed := true;
     connected := connected z; subscribed := subscribed z |}.

(** [context.destroy(0)]: the library either closes every socket of
    the context and terminates it, or raises [ZMQError errno]; nothing
    is assumed about the state it leaves when it raises, in the model
    it is the state before the call. *)
Definition destroy (failure : option Z) (z : zmq) : result_of exn unit * zmq :=
  match failure with
  | None => (inl tt, destroyed z)
  | Some errno => (inr (ZMQError errno), z)
  end.

(** [stop]; [failure] is what [context.destroy(0)] would do if called. *)
Definition stop (self : CircusConsumer) (failure : option Z) (z : zmq)
    : result_of exn unit * zmq :=
  if keep_context self then (inl tt, z)
  else
    match destroy failure z with
    | (inr (ZMQError errno), z') =>
        if errno =? EINTR then (inl tt, z') else (inr (ZMQError errno), z')
    | r => r
    end.

(** [__exit__] calls [stop] and returns [None]: an exception that is
    leaving the [with] block keeps propagating, unless [stop] raises,
    in which case the exception of [stop] replaces it. *)
Definition __exit__ (self : CircusConsumer) (failure : option Z)
    (leaving : option exn) (z : zmq) : option exn * zmq :=
  match stop self failure z with
  | (inl _, z') => (leaving, z')
  | (inr e, z') => (Some e, z')
  end.

(** One turn of the [while True] loop, as the library answers it:
    [poll] raises, [poll] returns no event, or [poll] returns an event
    and [recv_multipart] then returns frames or raises. *)
Inductive turn : Type :=
| PollRaises (errno : Z)
| PollEmpty
| Recv (frames : list string)
| RecvRaises (errno : Z).

(** How a run of the generator over finitely many turns ends: still
    inside the loop, or left through the [with] block with an
    exception. *)
Inductive ending : Type :=
| Looping
| Raised (e : exn).

(** [iter_messages], driven through the given turns by a caller that
    keeps asking for the next item: the pairs yielded, how it ends, and
    the state of zmq then. *)
Fixpoint iter_messages (self : CircusConsumer) (failure : option Z)
    (turns : list turn) (z : zmq) : list (string * string) * ending * zmq :=
  let leave (e : exn) :=
    let r := __exit__ self failure (Some e) z in
    ([], Raised (default e r.1), r.2) in
  match turns with
  | [] => ([], Looping, z)
  | PollRaises errno :: rest =>
      if errno =? EINTR then iter_messages self failure rest z
      else leave (ZMQError errno)
  | PollEmpty :: rest => iter_messages self failure rest z
  | Recv [topic; message] :: rest =>
      let '(ys, e, z') := iter_messages self failure rest z in
      ((topic, message) :: ys, e, z')
  | Recv _ :: _ => leave ValueError
  | RecvRaises errno :: _ => leave (ZMQError errno)
  end.


End Consumer.

(** ** circus/share.py, the Windows branch *)

Module Share.

(** The constants of the module. *)
Definition CREATE_NEW : Z := 1.
Definition CREATE_ALWAYS : Z := 2.
Definition OPEN_EXISTING : Z := 3.
Definition OPEN_ALWAYS : Z := 4.
Definition TRUNCATE_EXISTING : Z := 5.
Definition FILE_SHARE_READ : Z := 0x00000001.
Definition FILE_SHARE_WRITE : Z := 0x00000002.
Definition FILE_SHARE_DELETE : Z := 0x00000004.
Definition FILE_SHARE_VALID_FLAGS : Z := 0x00000007.
Definition FILE_ATTRIBUTE_READONLY : Z := 0x00000001.
Definition FILE_ATTRIBUTE_NORMAL : Z := 0x00000080.
Definition FILE_ATTRIBUTE_TEMPORARY : Z := 0x00000100.
Definition FILE_FLAG_DELETE_ON_CLOSE : Z := 0x04000000.
Definition FILE_FLAG_SEQUENTIAL_SCAN : Z := 0x08000000.
Definition FILE_FLAG_RANDOM_ACCESS : Z := 0x10000000.
Definition GENERIC_READ : Z := 0x80000000.
Definition GENERIC_WRITE : Z := 0x40000000.
Definition DELETE : Z := 0x00010000.
Definition NULL : Z := 0.

(** The flags of Python's [os] module on Windows. *)
Definition O_RDONLY : Z := 0x0000.
Definition O_WRONLY : Z := 0x0001.
Definition O_RDWR : Z := 0x0002.
Definition O_RANDOM : Z := 0x0010.
Definition O_SEQUENTIAL : Z := 0x0020.
Definition O_TEMPORARY : Z := 0x0040.
Definition O_NOINHERIT : Z := 0x0080.
Definition O_CREAT : Z := 0x0100.
Definition O_TRUNC : Z := 0x0200.
Definition O_EXCL : Z := 0x0400.
Definition O_SHORT_LIVED : Z := 0x1000.

(** A dictionary with integer keys, as the literal lists it. *)
Definition lookup_int (k : Z) (m : list (Z * Z)) : option Z :=
  snd <$> List.find (fun kv => kv.1 =? k) m.

Definition _ACCESS_MASK : Z := Z.lor (Z.lor O_RDONLY O_WRONLY) O_RDWR.
Definition _ACCESS_MAP : list (Z * Z) :=
  [ (O_RDONLY, GENERIC_READ);
    (O_WRONLY, GENERIC_WRITE);
    (O_RDWR, Z.lor GENERIC_READ GENERIC_WRITE) ].

Definition _CREATE_MASK : Z := Z.lor (Z.lor O_CREAT O_EXCL) O_TRUNC.
Definition _CREATE_MAP : list (Z * Z) :=
  [ (0, OPEN_EXISTING);
    (O_EXCL, OPEN_EXISTING);
    (O_CREAT, OPEN_ALWAYS);
    (Z.lor O_CREAT O_EXCL, CREATE_NEW);
    (Z.lor (Z.lor O_CREAT O_TRUNC) O_EXCL, CREATE_NEW);
    (O_TRUNC, TRUNCATE_EXISTING);
    (Z.lor O_TRUNC O_EXCL, TRUNCATE_EXISTING);
    (Z.lor O_CREAT O_TRUNC, CREATE_ALWAYS) ].

(** A numeric argument: an [int], or a number that is not an [int]. *)
Inductive num : Type :=
| Int (n : Z)
| Float (q : Q).

Definition isinstance_int (x : num) : bool :=
  match x with Int _ => true | Float _ => false end.

(** [x >= 0] *)
Definition nonneg (x : num) : bool :=
  match x with Int n => 0 <=? n | Float q => Qle_bool 0 q end.

(** The file name: a [str], or [bytes] that [os.fsdecode] turns into
    the given [str]. *)
Inductive filename : Type :=
| Str (s : string)
| Bytes (decoded : string).

Inductive exn : Type :=
| ValueError (msg : string)
| KeyError (key : Z)
| TypeError.

(** The call [_winapi.CreateFile(file, access_flags, share_flags, NULL,
    create_flags, attrib_flags, NULL)] that [os_open] ends with, and
    the flags it passes on to [msvcrt.open_osfhandle]. *)
Record CreateFile : Type := {
  cf_file : string;
  cf_access : Z;
  cf_share : Z;
  cf_create : Z;
  cf_attrib : Z;
  osfhandle_flags : Z
}.

(** [a |= b] when [flags & bit] is non-zero *)
Definition or_if (flags bit : Z) (a b : Z) : Z :=
  if negb (Z.land flags bit =? 0) then Z.lor a b else a.

(** [os_open]: the exception it raises, or the Win32 call it makes;
    [warned] tells whether the deprecation warning was issued. *)
Definition os_open (file : filename) (flags mode : num) (share_flags : Z)
    : result_of exn (CreateFile * bool) :=
  if negb (isinstance_int flags) && nonneg mode then inr (ValueError "bad flags")
  else if negb (isinstance_int mode) && nonneg mode then inr (ValueError "bad mode")
  else if negb (Z.land share_flags (Z.lnot FILE_SHARE_VALID_FLAGS) =? 0)
  then inr (ValueError "bad share_flags")
  else
    let '(file, warned) :=
      match file with Str s => (s, false) | Bytes s => (s, true) end in
    match flags with
    | Float _ => inr TypeError
    | Int flags =>
        match lookup_int (Z.land flags _ACCESS_MASK) _ACCESS_MAP with
        | None => inr (KeyError (Z.land flags _ACCESS_MASK))
        | Some access_flags =>
            match lookup_int (Z.land flags _CREATE_MASK) _CREATE_MAP with
            | None => inr (KeyError (Z.land flags _CREATE_MASK))
            | Some create_flags =>
                let attrib_flags := FILE_ATTRIBUTE_NORMAL in
                let readonly : result_of exn bool :=
                  if negb (Z.land flags O_CREAT =? 0) then
                    match mode with
                    | Int mode => inl (Z.land mode (Z.lnot 292 (* 0o444 *)) =? 0)
                    | Float _ => inr TypeError
                    end
                  else inl false in
                match readonly with
                | inr e => inr e
                | inl readonly =>
                    let attrib_flags :=
                      if readonly then FILE_ATTRIBUTE_READONLY else attrib_flags in
                    let share_flags :=
                      or_if flags O_TEMPORARY share_flags FILE_SHARE_DELETE in
                    let attrib_flags :=
                      or_if flags O_TEMPORARY attrib_flags FILE_FLAG_DELETE_ON_CLOSE in
                    let access_flags := or_if flags O_TEMPORARY access_flags DELETE in
                    let attrib_flags :=
                      or_if flags O_SHORT_LIVED attrib_flags FILE_ATTRIBUTE_TEMPORARY in
                    let attrib_flags :=
                      or_if flags O_SEQUENTIAL attrib_flags FILE_FLAG_SEQUENTIAL_SCAN in
                    let attrib_flags :=
                      or_if flags O_RANDOM attrib_flags FILE_FLAG_RANDOM_ACCESS in
                    inl ({| cf_file := file; cf_access := access_flags;
                            cf_share := share_flags; cf_create := create_flags;
                            cf_attrib := attrib_flags;
                            osfhandle_flags := Z.lor flags O_NOINHERIT |}, warned)
                end
            end
        end
    end.

End Share.

(** ** A platform to run the configuration reader on

    One choice for what [config.py] imports, used to evaluate [get_config]
    on concrete files.  The helpers follow what the call sites expect of
    them on the plain text the example files hold: [replace_gnu_args]
    leaves a text without [$(circus...)] references as it is (no example
    file has any), [to_bool] reads [true]/[1] and [false]/[0] in any
    case, and [sort_by_field] with its default field is a stable sort on
    the [name] entry. *)

Module Platform.

Definition digit_of (base : Z) (c : ascii) : option Z :=
  let n := Z.of_nat (nat_of_ascii c) - 48 in
  if (0 <=? n) && (n <? base) then Some n else None.

Fixpoint digits (base acc : Z) (s : string) : option Z :=
  match s with
  | EmptyString => Some acc
  | String c t =>
      match digit_of base c with
      | Some d => digits base (acc * base + d) t
      | None => None
      end
  end.

Definition unsigned (base : Z) (s : string) : option Z :=
  match s with
  | EmptyString => None
  | _ => digits base 0 s
  end.

(** [int(s, base)]: white space around, an optional sign, digits. *)
Definition int_of_string (base : Z) (s : string) : option Z :=
  match PyStr.strip s with
  | String "-" t => Z.opp <$> unsigned base t
  | String "+" t => unsigned base t
  | t => unsigned base t
  end.

(** [float(s)] on decimal literals [d], [d.d] with an optional sign. *)
Definition float_of_string (s : string) : option Q :=
  let body (t : string) : option Q :=
    match PyStr.split "." (Some 1%nat) t with
    | [i] => inject_Z <$> unsigned 10 i
    | [i; f] =>
        match unsigned 10 i, unsigned 10 f with
        | Some a, Some b =>
            let scale := Z.pow 10 (Z.of_nat (String.length f)) in
            Some (Qmake (a * scale + b) (Z.to_pos scale))
        | _, _ => None
        end
    | _ => None
    end in
  match PyStr.strip s with
  | String "-" t => Qopp <$> body t
  | String "+" t => body t
  | t => body t
  end.

Definition to_bool (s : string) : option bool :=
  let t := PyStr.strip (PyStr.lower s) in
  if Config.is_in t ["true"; "1"] then Some true
  else if Config.is_in t ["false"; "0"] then Some false
  else None.

Definition to_signum (s : string) : option Z :=
  match int_of_string 10 s with
  | Some n => Some n
  | None =>
      let t := PyStr.strip (PyStr.lower s) in
      if Config.is_in t ["sigterm"; "term"] then Some 15
      else if Config.is_in t ["sigkill"; "kill"] then Some 9
      else if Config.is_in t ["sigint"; "int"] then Some 2
      else if Config.is_in t ["sighup"; "hup"] then Some 1
      else None
  end.

(** Shell-style matching with [*] and [?]. *)
Fixpoint glob (pat : string) : string -> bool :=
  match pat with
  | EmptyString => fun name => String.eqb name ""
  | String "*" pat' =>
      fix star (name : string) : bool :=
        glob pat' name
        || match name with String _ t => star t | EmptyString => false end
  | String "?" pat' =>
      fun name => match name with String _ t => glob pat' t | EmptyString => false end
  | String c pat' =>
      fun name =>
        match name with
        | String d t => Ascii.eqb c d && glob pat' t
        | EmptyString => false
        end
  end.

Definition name_of (d : dict) : string :=
  match d !! "name" with Some (VStr n) => n | _ => "" end.

Fixpoint insert_by {A} (key : A -> string) (x : A) (l : list A) : list A :=
  match l with
  | [] => [x]
  | y :: t =>
      if String.leb (key x) (key y) then x :: y :: t
      else y :: insert_by key x t
  end.

(** A stable sort, ascending on [key]. *)
Fixpoint sort_by {A} (key : A -> string) (l : list A) : list A :=
  match l with
  | [] => []
  | x :: t => insert_by key x (sort_by key t)
  end.

(** The platform; [rlim_infinity] is [resource.RLIM_INFINITY], or
    [None] where the module [resource] is missing. *)
Definition externals (rlim_infinity : option Z) : Config.Externals :=
  {| Config.replace_gnu_args := fun data _ => data;
     Config.to_bool := to_bool;
     Config.to_signum := to_signum;
     Config.papa := false;
     Config.DEFAULT_ENDPOINT_DEALER := "tcp://127.0.0.1:5555";
     Config.DEFAULT_ENDPOINT_SUB := "tcp://127.0.0.1:5556";
     Config.DEFAULT_ENDPOINT_MULTICAST := "udp://237.219.251.97:12027";
     Config.DEFAULT_ENDPOINT_STATS := "tcp://127.0.0.1:5557";
     Config.sort_by_field := fun A view => sort_by (fun x => name_of (view x));
     Config.py_int := int_of_string 10;
     Config.py_int8 := int_of_string 8;
     Config.py_float := float_of_string;
     Config.fnmatch := fun name pat => glob pat name;
     Config.resource := rlim_infinity;
     Config.SIGTERM := 15 |}.

(** Linux: [RLIM_INFINITY] is [-1]. *)
Definition linux : Config.Externals := externals (Some (-1)).

(** macOS: [RLIM_INFINITY] is [2^63 - 1]. *)
Definition darwin : Config.Externals := externals (Some 9223372036854775807).

(** The environment of the parent process in the examples. *)
Definition environ : gmap string string :=
  {[ "PATH" := "/usr/bin:/bin"; "HOME" := "/root" ]}.

(** A configuration file of the examples: a [circus] section, two
    watchers, a socket and a plugin. *)
Definition example_file : Config.file :=
  [ ("circus", [("stats_endpoint", "tcp://127.0.0.1:5557")]);
    ("watcher:b", [("cmd", "sleep"); ("priority", "1");
                   ("rlimit_nofile", "-1"); ("copy_path", "true")]);
    ("watcher:a", [("cmd", "sleep 2"); ("priority", "2"); ("copy_env", "1");
                   ("hooks.before_start", "m.f, true")]);
    ("socket:S", [("host", "h")]);
    ("plugin:p", [("use", "x"); ("priority", "3")]) ].

End Platform.

(** ** Notions the properties of [get_config] are stated with *)

(** The options of a section of a file, if the file has the section. *)
Definition options_of (f : Config.file) (section : string)
    : option (list (string * string)) :=
  Config.section_options {| Config.data := f; Config._env := ∅ |} section.

(** The text a file gives an option, if it does. *)
Definition configured (f : Config.file) (section opt : string) : option string :=
  options_of f section ≫= fun its => Config.option_value its opt.

(** [global_env] as [get_config] computes it: [os.environ] updated with
    the [env] section. *)
Definition global_env_of (X : Config.Externals) (environ : gmap string string)
    (f : Config.file) : dict :=
  match Config.load_env X environ (Config.read_config environ f) with
  | (Ok ge_le, _) => ge_le.1
  | _ => ∅
  end.

(** The boolean a file gives an option, as [dget(section, opt, _, bool)]
    reads it in the loops of [get_config]. *)
Definition configured_bool (X : Config.Externals) (environ : gmap string string)
    (f : Config.file) (section opt : string) : option bool :=
  configured f section opt
    ≫= fun raw =>
         Config.to_bool X (Config.replace_gnu_args X raw (global_env_of X environ f)).

(** The dictionaries of the list a snapshot holds under [key]. *)
Definition entries (snap : dict) (key : string) : list dict :=
  match snap !! key with
  | Some (VList l) =>
      omap (fun v => match v with VDict d => Some d | _ => None end) l
  | _ => []
  end.

(** [f] with the value [v] of every [priority] option of a watcher
    section [s] replaced by [g s v]. *)
Definition set_priorities (g : string -> string -> string) (f : Config.file)
    : Config.file :=
  List.map
    (fun si =>
       (si.1,
        if PyStr.startswith "watcher:" si.1 then
          List.map (fun kv => (kv.1, if String.eqb kv.1 "priority"
                                     then g si.1 kv.2 else kv.2)) si.2
        else si.2))
    f.

(** The keys of a watcher that an option named [opt] can write: the key
    [opt] itself, [rlimits] for an [rlimit_] option, [hooks] for a
    [hooks.] option, and the part before the first dot (lines 291-294). *)
Definition touches (opt k : string) : Prop :=
  opt = k
  \/ (PyStr.startswith "rlimit_" opt = true /\ k = "rlimits")
  \/ (PyStr.startswith "hooks." opt = true /\ k = "hooks")
  \/ (PyStr.startswith "stderr_stream" opt || PyStr.startswith "stdout_stream" opt
      = true
      /\ exists stream_opt, PyStr.split "." (Some 1%nat) opt = [k; stream_opt]).

(** The watcher dictionary as line 239 appends it: the defaults with
    [name], [copy_env] and [env] set. *)
Definition initial_watcher (X : Config.Externals) (name : string)
    (copy_env : bool) (global_env local_env : dict) : dict :=
  <["env" := VDict (if copy_env then global_env else local_env)]>
    (<["copy_env" := VBool copy_env]>
       (<["name" := VStr name]> (Config.watcher_defaults X))).

(** [local_env] as [get_config] computes it: the [env] section. *)
Definition local_env_of (X : Config.Externals) (environ : gmap string string)
    (f : Config.file) : dict :=
  match Config.load_env X environ (Config.read_config environ f) with
  | (Ok ge_le, _) => ge_le.2
  | _ => ∅
  end.

(** The watcher dictionary that the first loop stores for a section, if
    it stores one: the section is a watcher section and is not empty. *)
Definition first_watcher (X : Config.Externals) (environ : gmap string string)
    (f : Config.file) (section : string) : option dict :=
  options_of f section
    ≫= fun raw =>
         if PyStr.startswith "watcher:" section
            && negb (Config.is_empty_section (dict_of_items raw))
         then
           PyStr.split "watcher:" (Some 1%nat) section !! 1%nat
             ≫= fun name =>
                  Some (initial_watcher X name
                          (default false
                             (configured_bool X environ f section "copy_env"))
                          (global_env_of X environ f) (local_env_of X environ f))
         else None.

(** How the loop over the [env:] sections may change a watcher: only
    its [env] entry, and there only the keys that are not [free]. *)
Definition env_updated (free : string -> Prop) (w0 w1 : dict) : Prop :=
  (forall k, k <> "env" -> w1 !! k = w0 !! k)
  /\ (forall e0, w0 !! "env" = Some (VDict e0) ->
       exists e1, w1 !! "env" = Some (VDict e1)
                  /\ forall key, free key -> e1 !! key = e0 !! key).

(** No [env:] section of the file sets [key]. *)
Definition env_free (f : Config.file) (key : string) : Prop :=
  forall section raw,
    options_of f section = Some raw ->
    PyStr.startswith "env:" section = true ->
    key ∉ raw.*1.

(** A key that only the option of the same name writes. *)
Definition plain_key (k : string) : Prop :=
  k <> "rlimits" /\ k <> "hooks"
  /\ forall stream_opt,
       PyStr.startswith "stderr_stream" (k +:+ "." +:+ stream_opt)
       || PyStr.startswith "stdout_stream" (k +:+ "." +:+ stream_opt) = false.

(** A turn that ends the generator of [iter_messages]: a poll that
    raises anything but [EINTR], a message that is not of two frames,
    or a [recv_multipart] that raises. *)
Definition ends_run (t : Consumer.turn) : bool :=
  match t with
  | Consumer.PollRaises errno => negb (errno =? Consumer.EINTR)
  | Consumer.PollEmpty => false
  | Consumer.Recv [_; _] => false
  | Consumer.Recv _ => true
  | Consumer.RecvRaises _ => true
  end.

(** The pair a turn delivers, if it is a message of two frames. *)
Definition message_of (t : Consumer.turn) : option (string * string) :=
  match t with
  | Consumer.Recv [topic; message] => Some (topic, message)
  | _ => None
  end.

(** [flags & bit] is non-zero, as [os_open] tests a flag. *)
Definition has_flag (flags bit : Z) : bool := negb (Z.land flags bit =? 0).

(** [sort_by_field] rearranges the list it is given. *)
Definition sort_permutes (X : Config.Externals) : Prop :=
  forall (A : Type) (view : A -> dict) (l : list A),
    Config.sort_by_field X A view l ≡ₚ l.

(** * Properties *)

(** ** share.py: [os_open] *)

Section ShareFacts.
Import Share.

Lemma land_shiftl_r (a b n : Z) :
  0 <= n -> Z.land a (Z.shiftl b n) = Z.shiftl (Z.land (Z.shiftr a n) b) n.
Proof.
  intros Hn. apply Z.bits_inj'. intros i Hi.
  rewrite Z.land_spec, !Z.shiftl_spec by lia.
  destruct (Z.lt_ge_cases i n) as [Hlt|Hge].
  - rewrite !(Z.testbit_neg_r _ (i - n)) by lia. apply andb_false_r.
  - rewrite Z.land_spec, Z.shiftr_spec by lia.
    f_equal. f_equal. lia.
Qed.






End ShareFacts.

(** ** consumer.py: [CircusConsumer] *)

Section ConsumerFacts.
Import Consumer.





(** C9.  A poll interrupted by a signal is retried: the turn is skipped
    and the loop goes on.  Any other [ZMQError] of the poll ends the
    generator with a [ZMQError]: the one of the poll, unless [stop],
    run by the [with] block, raises one of its own.  [stop] returns
    normally when [context.destroy] is interrupted and lets any other
    [ZMQError] through. *)
Theorem consumer_eintr_transient :
  forall (self : CircusConsumer) (failure : option Z) (rest : list turn)
         (z : zmq) (errno : Z),
    iter_messages self failure (PollRaises EINTR :: rest) z
      = iter_messages self failure rest z
    /\ (stop self (Some EINTR) z).1 = inl tt
    /\ (errno <> EINTR ->
        (exists e z',
            iter_messages self failure (PollRaises errno :: rest) z
              = ([], Raised (ZMQError e), z')
            /\ ((stop self failure z).1 = inl tt -> e = errno)
            /\ (forall e', (stop self failure z).1 = inr (ZMQError e') -> e = e'))
        /\ (keep_context self = false ->
            (stop self (Some errno) z).1 = inr (ZMQError errno))).
Proof.
  intros self failure rest z errno. split; [reflexivity|]. split.
  - unfold stop. destruct (keep_context self); reflexivity.
  - intros Hne. apply Z.eqb_neq in Hne. split.
    + cbn [iter_messages]. rewrite Hne. unfold __exit__, stop.
      destruct (keep_context self);
        [cbn; eexists _, _; split; [reflexivity|]; split; [done | discriminate] |].
      destruct failure as [e'|]; cbn.
      * destruct (e' =? EINTR) eqn:He; cbn.
        -- eexists _, _; split; [reflexivity|]; split; [done | discriminate].
        -- eexists _, _; split; [reflexivity|]; split; [discriminate | by intros ? [= ->]].
      * eexists _, _; split; [reflexivity|]; split; [done | discriminate].
    + intros Hk. unfold stop. rewrite Hk. cbn. by rewrite Hne.
Qed.

Lemma consumer_eintr_transient_witness :
  let c := init ["watcher."] None "tcp://127.0.0.1:5556" 1 in
  (iter_messages c.1 None [PollRaises 11; Recv ["t"; "m"]] c.2).1
    = ([], Raised (ZMQError 11))
  /\ (stop c.1 (Some 156384765) c.2).1 = inr (ZMQError 156384765).
Proof.
  cbv zeta.
  destruct (consumer_eintr_transient
              (init ["watcher."] None "tcp://127.0.0.1:5556" 1).1 None
              [Recv ["t"; "m"]]
              (init ["watcher."] None "tcp://127.0.0.1:5556" 1).2 11)
    as (_ & _ & H).
  destruct (H ltac:(discriminate)) as [(e & z' & Hrun & He & _) _].
  rewrite Hrun, (He eq_refl). split; [reflexivity|].
  destruct (consumer_eintr_transient
              (init ["watcher."] None "tcp://127.0.0.1:5556" 1).1 None []
              (init ["watcher."] None "tcp://127.0.0.1:5556" 1).2 156384765)
    as (_ & _ & H').
  destruct (H' ltac:(discriminate)) as [_ Hstop]. exact (Hstop eq_refl).
Defined.

End ConsumerFacts.

(** ** config.py: [expand_vars] *)

Section ExpandVarsFacts.
Import Config.
Variable X : Externals.

(** C8.  [expand_vars] keeps the shape of its argument: a dictionary
    comes back as a dictionary with the same keys, each value expanded;
    a list as a list of the same length, each element expanded; a
    value that is neither a string, a dictionary nor a list ([None], a
    boolean, an integer, a float) comes back as it is. *)
Theorem expand_vars_preserves_structure :
  forall env : dict,
    (forall d : dict,
        exists d' : dict,
          expand_vars X (VDict d) env = VDict d'
          /\ dom d' = dom d
          /\ forall k, d' !! k = (fun v => expand_vars X v env) <$> d !! k)
    /\ (forall l : list value,
        exists l' : list value,
          expand_vars X (VList l) env = VList l'
          /\ length l' = length l
          /\ forall i : nat, l' !! i = (fun v => expand_vars X v env) <$> l !! i)
    /\ expand_vars X VNone env = VNone
    /\ (forall b, expand_vars X (VBool b) env = VBool b)
    /\ (forall n, expand_vars X (VInt n) env = VInt n)
    /\ (forall q, expand_vars X (VFloat q) env = VFloat q).
Proof.
  intros env. repeat split.
  - intros d. exists ((fun v => expand_vars X v env) <$> d).
    split; [reflexivity|]. split; [apply dom_fmap_L|].
    intros k. apply lookup_fmap.
  - intros l. exists ((fun v => expand_vars X v env) <$> l).
    split; [reflexivity|]. split; [apply length_fmap|].
    intros i. apply list_lookup_fmap.
Qed.

End ExpandVarsFacts.

(** ** config.py: [get_config] *)

(** *** Running a computation to a value *)

Lemma bind_Ok {A B} (m : M A) (f : A -> M B) (b : B) (w : list warning) :
  bind m f = (Ok b, w) ->
  exists a w1 w2, m = (Ok a, w1) /\ f a = (Ok b, w2) /\ w = (w1 ++ w2)%list.
Proof.
  unfold bind. destruct m as [[a|e] w1]; [|discriminate].
  destruct (f a) as [r w2] eqn:E. cbn. intros [= -> <-]. eauto 6.
Qed.

Lemma ret_Ok {A} (a b : A) (w : list warning) :
  ret a = (Ok b, w) -> a = b /\ w = [].
Proof. unfold ret. intros [= -> <-]. done. Qed.

Lemma of_option_Ok {A} (e : exn) (o : option A) (a : A) (w : list warning) :
  of_option e o = (Ok a, w) -> o = Some a /\ w = [].
Proof. destruct o; cbn; [intros [= -> <-]; done | discriminate]. Qed.

Lemma warn_Ok (x : warning) (u : unit) (w : list warning) :
  warn x = (Ok u, w) -> w = [x].
Proof. unfold warn. by intros [= <-]. Qed.

(** One step of inversion on a hypothesis [m = (Ok _, _)]. *)
Ltac inv_step :=
  match goal with
  | H : bind _ _ = (Ok _, _) |- _ =>
      let a := fresh "v" in
      let w1 := fresh "w" in
      let w2 := fresh "w" in
      let E := fresh "E" in
      let Hw := fresh "Hw" in
      apply bind_Ok in H as (a & w1 & w2 & E & H & Hw);
      first [ subst
            | symmetry in Hw; apply app_eq_nil in Hw as [-> ->]
            | idtac ]
  | H : ret _ = (Ok _, _) |- _ => apply ret_Ok in H as [? ?]; subst
  | H : raise _ = (Ok _, _) |- _ => discriminate H
  | H : of_option _ _ = (Ok _, _) |- _ => apply of_option_Ok in H as [? ?]; subst
  | H : warn _ = (Ok _, _) |- _ => apply warn_Ok in H; subst
  end.

(** A property kept by every step of a loop holds at its end. *)
Lemma foldM_invariant {A B} (P : A -> Prop) (body : A -> B -> M A)
    (l : list B) :
  (forall acc x acc' w, x ∈ l -> P acc -> body acc x = (Ok acc', w) -> P acc') ->
  forall acc r w, P acc -> foldM body acc l = (Ok r, w) -> P r.
Proof.
  induction l as [|x t IH]; intros Hstep acc r w HP H; cbn in H.
  - inv_step. done.
  - inv_step. eapply (IH ltac:(intros; eapply Hstep; eauto; by right)); [|done].
    eapply Hstep; eauto. by left.
Qed.

Section ConfigFacts.
Import Config.
Variable X : Externals.

Lemma has_option_configured environ f env section opt :
  has_option (set_env (read_config environ f) env) section opt
  = bool_decide (is_Some (configured f section opt)).
Proof.
  unfold has_option, configured, options_of, section_options. cbn.
  destruct (List.find _ f) as [[s its]|]; cbn; done.
Qed.

Lemma _dget_Ok s default ty v w :
  _dget X (Some s) default ty = (Ok v, w) -> w = [].
Proof.
  destruct ty; cbn; intros H; repeat inv_step; done.
Qed.

(** What [dget] returns for an option the file does not set, and for
    one it sets. *)
Lemma dget_inv environ f env section opt default ty v w :
  dget X (set_env (read_config environ f) env) section opt default ty = (Ok v, w) ->
  w = [] /\
  match configured f section opt with
  | None => v = default
  | Some raw =>
      _dget X (Some (replace_gnu_args X raw env)) default ty = (Ok v, [])
  end.
Proof.
  unfold dget. rewrite has_option_configured.
  destruct (configured f section opt) as [raw|] eqn:Hc.
  - rewrite bool_decide_eq_true_2 by eauto. cbn [negb]. intros H.
    inv_step. unfold get in E. repeat inv_step.
    unfold configured, options_of in Hc.
    change (section_options {| data := f; _env := ∅ |} section)
      with (section_options (set_env (read_config environ f) env) section) in Hc.
    rewrite H1 in Hc. change (option_value v1 opt = Some raw) in Hc.
    rewrite H0 in Hc. injection Hc as <-.
    pose proof (_dget_Ok _ _ _ _ _ H) as ->. done.
  - rewrite bool_decide_eq_false_2 by (by intros [? ?]). cbn [negb].
    intros H. by inv_step.
Qed.


(** The phases of [get_config], for a run that returns. *)
Lemma get_config_inv environ f snap ws :
  get_config X environ f = (Ok snap, ws) ->
  exists ge le config st store1 store2 w1 w2 w3 w4 w5,
    let cfg := set_env (read_config environ f) ge in
    let wl := sort_by_field X _ (deref (watchers_map st)) (watchers st) in
    load_env X environ (read_config environ f) = (Ok (ge, le), w1)
    /\ circus_options X cfg ∅ = (Ok config, w2)
    /\ foldM (scan_section X cfg ge le) managed_init (sections cfg) = (Ok st, w3)
    /\ foldM (env_section X cfg wl) (watchers_map st) (sections cfg)
       = (Ok store1, w4)
    /\ foldM (configure_watcher X cfg ge) store1 (sections cfg) = (Ok store2, w5)
    /\ snap = <["sockets" := VList (VDict <$> sort_by_field X _ id (sockets st))]>
               (<["plugins" := VList (VDict <$> sort_by_field X _ id (plugins st))]>
                 (<["watchers" := VList (VDict <$> (deref store2 <$> wl))]> config))
    /\ ws = (w1 ++ w2 ++ w3 ++ w4 ++ w5)%list.
Proof.
  unfold get_config. intros H. repeat inv_step.
  destruct v as [ge le]. cbn [fst snd] in *. rewrite app_nil_r.
  do 11 eexists. cbv zeta. repeat split; try eassumption; reflexivity.
Qed.

Ltac inv_options H :=
  unfold circus_options in H;
  repeat match goal with
    | H : (if ?b then _ else _) = (Ok _, _) |- _ => destruct b eqn:?
    | H : (match ?v with VNone => _ | _ => _ end) = (Ok _, _) |- _ =>
        destruct v eqn:?
    | _ => inv_step
    end.

(** The snapshot has the main circus options. *)
Lemma circus_options_keys cfg config w k :
  circus_options X cfg ∅ = (Ok config, w) ->
  k ∈ ["check_delay"; "endpoint"; "pubsub_endpoint"; "stats_endpoint"; "statsd";
       "umask"; "warmup_delay"; "loglevel"; "pidfile"] ->
  is_Some (config !! k).
Proof.
  intros H Hk. inv_options H.
  all: repeat (apply elem_of_cons in Hk as [->|Hk]; [vm_compute; eauto|]).
  all: by apply elem_of_nil in Hk.
Qed.


Lemma dget_bool environ f ge section opt d v w :
  dget X (set_env (read_config environ f) ge) section opt (VBool d) TBool
  = (Ok v, w) ->
  w = [] /\
  v = VBool (default d (configured f section opt
                          ≫= fun raw => to_bool X (replace_gnu_args X raw ge))).
Proof.
  intros H. apply dget_inv in H as [-> H]. split; [done|].
  destruct (configured f section opt) as [raw|]; cbn; [|done].
  cbn in H. repeat inv_step.
  match goal with E : to_bool _ _ = _ |- _ => by rewrite E end.
Qed.

Lemma dget_str environ f ge section opt v w :
  dget X (set_env (read_config environ f) ge) section opt VNone TStr
  = (Ok v, w) ->
  w = [] /\
  v = from_option (fun raw => VStr (replace_gnu_args X raw ge)) VNone
        (configured f section opt).
Proof.
  intros H. apply dget_inv in H as [-> H]. split; [done|].
  destruct (configured f section opt) as [raw|]; cbn; [|done].
  cbn in H. by inv_step.
Qed.

(** Lines 177-189: what [stats_endpoint] and [statsd] end up as. *)
Lemma circus_options_stats environ f ge config w :
  circus_options X (set_env (read_config environ f) ge) ∅ = (Ok config, w) ->
  let statsd :=
    default false (configured f "circus" "statsd"
                     ≫= fun raw => to_bool X (replace_gnu_args X raw ge)) in
  match configured f "circus" "stats_endpoint" with
  | Some raw =>
      config !! "stats_endpoint" = Some (VStr (replace_gnu_args X raw ge))
      /\ config !! "statsd" = Some (VBool true)
      /\ (statsd = false ->
          DeprecationWarning
            "You defined a stats_endpoint without setting up statsd to True." ∈ w)
  | None =>
      config !! "stats_endpoint" = Some (VStr (DEFAULT_ENDPOINT_STATS X))
      /\ config !! "statsd" = Some (VBool statsd)
  end.
Proof.
  intros H. cbv zeta. unfold circus_options in H. do 7 inv_step.
  apply dget_str in E4 as [-> ->]. apply dget_bool in E5 as [-> ->].
  destruct (configured f "circus" "stats_endpoint") as [raw|];
    cbn [from_option] in H.
  - destruct (default false _) eqn:Hs; cbn [truthy negb] in H; inv_options H;
      (split; [reflexivity|]); (split; [reflexivity|]); intros ?; try done;
      set_solver.
  - inv_options H; (split; reflexivity).
Qed.


Lemma global_env_of_load environ f ge le w :
  load_env X environ (read_config environ f) = (Ok (ge, le), w) ->
  global_env_of X environ f = ge.
Proof. unfold global_env_of. by intros ->. Qed.

(** X1 (the shape that claim C1 is about).  Whenever [get_config] returns,
    the snapshot holds the global
    options [check_delay], [endpoint], [pubsub_endpoint],
    [stats_endpoint], [statsd], [umask], [warmup_delay], [loglevel] and
    [pidfile], and under each of [watchers], [sockets] and [plugins] a
    list whose entries are all dictionaries. *)
Theorem get_config_snapshot_shape environ f snap ws :
  get_config X environ f = (Ok snap, ws) ->
  Forall (fun k => is_Some (snap !! k))
    ["check_delay"; "endpoint"; "pubsub_endpoint"; "stats_endpoint"; "statsd";
     "umask"; "warmup_delay"; "loglevel"; "pidfile"]
  /\ Forall (fun k => exists l : list dict, snap !! k = Some (VList (VDict <$> l)))
       ["watchers"; "sockets"; "plugins"].
Proof.
  intros H.
  apply get_config_inv in H
    as (ge & le & config & st & store1 & store2 & w1 & w2 & w3 & w4 & w5
        & _ & Hopt & _ & _ & _ & -> & _).
  split.
  - apply Forall_forall. intros k Hk.
    pose proof (circus_options_keys _ _ _ _ Hopt Hk) as Hsome.
    rewrite !lookup_insert_ne; [done| |  |];
      intros <-; repeat (apply elem_of_cons in Hk as [Hk|Hk]; [discriminate|]);
      by apply elem_of_nil in Hk.
  - repeat apply Forall_cons_2; [| | |apply Forall_nil_2]; eexists.
    + rewrite !lookup_insert_ne by discriminate. apply lookup_insert_eq.
    + apply lookup_insert_eq.
    + rewrite lookup_insert_ne by discriminate. apply lookup_insert_eq.
Qed.

(** X2 (the rule that claim C3 is about).  Whenever [get_config] returns:
    when the file sets
    [stats_endpoint], the snapshot has [statsd] true, and when [statsd]
    was not set to true a [DeprecationWarning] has been issued; when the
    file does not set [stats_endpoint], the snapshot has the default
    stats endpoint and [statsd] as the file gives it, false by default. *)
Theorem stats_endpoint_enables_statsd environ f snap ws :
  get_config X environ f = (Ok snap, ws) ->
  let statsd := default false (configured_bool X environ f "circus" "statsd") in
  match configured f "circus" "stats_endpoint" with
  | Some _ =>
      snap !! "statsd" = Some (VBool true)
      /\ (statsd = false ->
          DeprecationWarning
            "You defined a stats_endpoint without setting up statsd to True." ∈ ws)
  | None =>
      snap !! "stats_endpoint" = Some (VStr (DEFAULT_ENDPOINT_STATS X))
      /\ snap !! "statsd" = Some (VBool statsd)
  end.
Proof.
  intros H.
  apply get_config_inv in H
    as (ge & le & config & st & store1 & store2 & w1 & w2 & w3 & w4 & w5
        & Henv & Hopt & _ & _ & _ & -> & ->).
  apply circus_options_stats in Hopt. cbv zeta in Hopt |- *.
  unfold configured_bool. rewrite (global_env_of_load _ _ _ _ _ Henv).
  destruct (configured f "circus" "stats_endpoint") as [raw|].
  - destruct Hopt as (_ & Hs & Hw). split.
    + by rewrite !lookup_insert_ne by discriminate.
    + intros Hf. specialize (Hw Hf). set_solver.
  - destruct Hopt as (He & Hs).
    by rewrite !lookup_insert_ne by discriminate.
Qed.

End ConfigFacts.

(** *** Strings *)

Lemma rev_string_cons (c : ascii) (cur : list ascii) (s : string) :
  (PyStr.rev_string (c :: cur) ++ s = PyStr.rev_string cur ++ String c s)%string.
Proof.
  unfold PyStr.rev_string. cbn [List.rev].
  induction (List.rev cur) as [|a l IH]; [reflexivity|].
  change (String a (string_of_list_ascii (l ++ [c]) +:+ s)
          = String a (string_of_list_ascii l +:+ String c s)).
  f_equal. exact IH.
Qed.

Lemma prefix_cons (a b : ascii) (p s : string) :
  String.prefix (String a p) (String b s)
  = if ascii_dec a b then String.prefix p s else false.
Proof. reflexivity. Qed.

Lemma split_go_exhausted (sep : string) (cur : list ascii) (s : string) :
  PyStr.split_go sep (Some 0%nat) 0 cur s = [(PyStr.rev_string cur ++ s)%string].
Proof.
  revert cur. induction s as [|c t IH]; intros cur; cbn.
  - f_equal. unfold PyStr.rev_string.
    induction (List.rev cur) as [|a l IHl]; [reflexivity|].
    change (String a (string_of_list_ascii l)
            = String a (string_of_list_ascii l +:+ "")).
    f_equal. exact IHl.
  - rewrite IH. by rewrite rev_string_cons.
Qed.

(** [s.split(".", 1)] with two pieces: the pieces joined by the dot give
    [s] back. *)
Lemma split_dot_join (s a b : string) :
  PyStr.split "." (Some 1%nat) s = [a; b] -> s = (a ++ "." ++ b)%string.
Proof.
  unfold PyStr.split.
  assert (forall cur, PyStr.split_go "." (Some 1%nat) 0 cur s = [a; b] ->
                      (PyStr.rev_string cur ++ s = a ++ "." ++ b)%string) as Hgo.
  { induction s as [|c t IH]; intros cur; cbn [PyStr.split_go].
    - discriminate.
    - destruct (String.prefix "." (String c t)) eqn:Hp.
      + cbn [fmap option_fmap option_map pred String.length Nat.sub].
        rewrite split_go_exhausted. intros [= <- <-].
        rewrite prefix_cons in Hp.
        destruct (ascii_dec "."%char c) as [<-|]; [|discriminate].
        reflexivity.
      + intros H. apply IH in H. by rewrite rev_string_cons in H. }
  intros H. apply Hgo in H. exact H.
Qed.

Lemma prefix_nil (s : string) : String.prefix "" s = true.
Proof. by destruct s. Qed.

Lemma prefix_app (p s : string) : String.prefix p (p +:+ s) = true.
Proof.
  induction p as [|c p IH]; [apply prefix_nil|].
  change (String c p +:+ s) with (String c (p +:+ s)). rewrite prefix_cons.
  by destruct (ascii_dec c c).
Qed.

Lemma split_go_cut (sep : string) (n : nat) (cur : list ascii) (c : ascii)
    (t : string) :
  String.prefix sep (String c t) = true ->
  PyStr.split_go sep (Some (S n)) 0 cur (String c t)
  = PyStr.rev_string cur
    :: PyStr.split_go sep (Some n) (String.length sep - 1) [] t.
Proof.
  intros H.
  change (PyStr.split_go sep (Some (S n)) 0 cur (String c t))
    with (if String.prefix sep (String c t)
          then PyStr.rev_string cur
               :: PyStr.split_go sep (Some n) (String.length sep - 1) [] t
          else PyStr.split_go sep (Some (S n)) 0 (c :: cur) t).
  by rewrite H.
Qed.

Lemma split_go_skip (sep : string) (b : option nat) (k : nat)
    (cur : list ascii) (c : ascii) (t : string) :
  PyStr.split_go sep b (S k) cur (String c t) = PyStr.split_go sep b k cur t.
Proof. reflexivity. Qed.

Lemma split_watcher (name : string) :
  PyStr.split "watcher:" (Some 1%nat) ("watcher:" +:+ name) = [""; name].
Proof.
  unfold PyStr.split.
  change ("watcher:" +:+ name) with (String "w" ("atcher:" +:+ name)).
  rewrite (split_go_cut "watcher:" 0 [] "w" ("atcher:" +:+ name))
    by apply (prefix_app "watcher:" name).
  change (String.length "watcher:" - 1)%nat with 7%nat.
  change ("atcher:" +:+ name)
    with (String "a" (String "t" (String "c" (String "h"
           (String "e" (String "r" (String ":" name))))))).
  rewrite !split_go_skip. by rewrite split_go_exhausted.
Qed.

Lemma prefix_drop (p s : string) :
  String.prefix p s = true -> s = (p ++ PyStr.drop (String.length p) s)%string.
Proof.
  revert s. induction p as [|c p IH]; intros s; [done|].
  destruct s as [|d s]; [discriminate|]. rewrite prefix_cons.
  destruct (ascii_dec c d) as [<-|]; [|discriminate].
  intros H. cbn [String.length PyStr.drop].
  change (String c s = String c (p +:+ PyStr.drop (String.length p) s)).
  f_equal. by apply IH.
Qed.

(** *** The options of a watcher section *)

(** Case analysis over the tests of [apply_option] in a hypothesis. *)
Ltac split_option H :=
  unfold Config.apply_option in H; cbn [Config.expand_vars] in H; cbv zeta in H;
  repeat match type of H with
    | (if ?b then _ else _) = _ => destruct b eqn:?
    | match ?l with [] => _ | _ => _ end = _ => destruct l eqn:?
    | bind _ _ = _ =>
        let v := fresh "v" in
        let w1 := fresh "w" in
        let w2 := fresh "w" in
        let E := fresh "E" in
        let Hw := fresh "Hw" in
        apply bind_Ok in H as (v & w1 & w2 & E & H & Hw)
    end.

Section WatcherFacts.
Import Config.
Variable X : Externals.

Lemma set_sub_Ok w key sub v w' ws :
  set_sub w key sub v = (Ok w', ws) ->
  exists d, w !! key = Some (VDict d) /\ w' = <[key := VDict (<[sub := v]> d)]> w
            /\ ws = [].
Proof.
  unfold set_sub. destruct (w !! key) as [[]|]; intros H; try by inv_step.
  inv_step. eauto.
Qed.

(** An option leaves alone every key it does not touch. *)
Lemma apply_option_frame env w kv w' ws k :
  apply_option X env w kv = (Ok w', ws) ->
  ~ touches kv.1 k ->
  w' !! k = w !! k.
Proof.
  destruct kv as [opt val]. cbn [fst]. intros H Hk.
  split_option H.
  all: try (apply set_sub_Ok in H as (d & Hd & -> & _)).
  all: try (inv_step).
  all: try reflexivity.
  all: try (apply lookup_insert_ne; intros <-; apply Hk; unfold touches;
            repeat match goal with
              | E : String.eqb _ _ = true |- _ => apply String.eqb_eq in E; subst
              end; eauto 6; fail).
Qed.


Lemma foldl_insert_dom (l : list (string * string)) (m : dict) :
  dom (foldl (fun m kv => <[kv.1 := VStr kv.2]> m) m l)
  = dom m ∪ list_to_set (l.*1).
Proof.
  revert m. induction l as [|[k v] l IH]; intros m; cbn.
  - set_solver.
  - rewrite IH, dom_insert_L. set_solver.
Qed.

Lemma dom_dict_of_items (l : list (string * string)) :
  dom (dict_of_items l) = list_to_set (l.*1).
Proof. unfold dict_of_items. rewrite foldl_insert_dom. set_solver. Qed.

Lemma is_empty_section_keys (l l' : list (string * string)) :
  l.*1 = l'.*1 ->
  is_empty_section (dict_of_items l) = is_empty_section (dict_of_items l').
Proof.
  intros H. unfold is_empty_section. by rewrite !dom_dict_of_items, H.
Qed.

Lemma lookup_dict_of_items_None (l : list (string * string)) (k : string) :
  k ∉ l.*1 -> dict_of_items l !! k = None.
Proof.
  intros H. apply not_elem_of_dom. rewrite dom_dict_of_items. set_solver.
Qed.

Section Run.
Variables (environ : gmap string string) (f : file) (ge le : dict).
Variable w_env : list warning.
Hypothesis Hload :
  load_env X environ (read_config environ f) = (Ok (ge, le), w_env).
Let cfg := set_env (read_config environ f) ge.

Lemma section_options_cfg sec :
  section_options cfg sec = options_of f sec.
Proof. reflexivity. Qed.

Lemma items_Ok sec noreplace its w :
  items X cfg sec noreplace = (Ok its, w) ->
  w = [] /\
  exists raw, section_options cfg sec = Some raw
              /\ its.*1 = raw.*1
              /\ (noreplace = true -> its = raw).
Proof.
  unfold items. intros H. inv_step.
  destruct noreplace; repeat inv_step; (split; [done|]); eexists;
    (split; [done|]).
  - done.
  - split; [|done]. rewrite <- list_fmap_compose. by apply list_fmap_ext.
Qed.

(** Lines 210-240: the state after a section has been scanned. *)
Lemma scan_section_watchers st sec st' w :
  scan_section X cfg ge le st sec = (Ok st', w) ->
  exists raw,
    section_options cfg sec = Some raw
    /\ if PyStr.startswith "watcher:" sec
          && negb (is_empty_section (dict_of_items raw))
       then exists name,
           PyStr.split "watcher:" (Some 1%nat) sec !! 1%nat = Some name
           /\ watchers st' = (watchers st ++ [sec])%list
           /\ watchers_map st'
              = <[sec := initial_watcher X name
                           (default false
                              (configured f sec "copy_env"
                                 ≫= fun raw => to_bool X (replace_gnu_args X raw ge)))
                           ge le]> (watchers_map st)
       else watchers st' = watchers st /\ watchers_map st' = watchers_map st.
Proof.
  unfold scan_section. intros H. inv_step.
  apply items_Ok in E as (-> & raw & Hraw & Hkeys & _).
  exists raw. split; [done|].
  rewrite (is_empty_section_keys _ _ Hkeys) in H.
  destruct (is_empty_section (dict_of_items raw)).
  { inv_step. by rewrite andb_false_r. }
  rewrite andb_true_r. cbn [app] in H. do 2 inv_step.
  assert (watchers v1 = watchers st /\ watchers_map v1 = watchers_map st)
    as [Hw Hm].
  { destruct (PyStr.startswith "plugin:" sec); repeat inv_step;
      destruct (PyStr.startswith "socket:" sec); repeat inv_step;
      try done;
      repeat match goal with
        | H : match ?o with Some _ => _ | None => _ end = (Ok _, _) |- _ =>
            destruct o as [[]|]
        | _ => inv_step
        end; done. }
  destruct (PyStr.startswith "watcher:" sec).
  - repeat inv_step. unfold index in *. inv_step.
    match goal with
    | E : dget _ _ _ _ _ _ = _ |- _ => apply dget_bool in E as [-> ->]
    end.
    eexists. split; [done|]. cbn [watchers watchers_map]. rewrite Hw, Hm.
    split; [done|]. f_equal. unfold initial_watcher. cbn [truthy].
    by destruct (default false _).
  - inv_step. done.
Qed.


Lemma local_env_of_load : local_env_of X environ f = le.
Proof. unfold local_env_of. by rewrite Hload. Qed.

Lemma scan_section_first st sec st' w :
  scan_section X cfg ge le st sec = (Ok st', w) ->
  match first_watcher X environ f sec with
  | Some wd => watchers st' = (watchers st ++ [sec])%list
               /\ watchers_map st' = <[sec := wd]> (watchers_map st)
  | None => watchers st' = watchers st /\ watchers_map st' = watchers_map st
  end.
Proof.
  intros H. apply scan_section_watchers in H as (raw & Hraw & H).
  unfold first_watcher, configured_bool.
  rewrite (global_env_of_load X _ _ _ _ _ Hload), local_env_of_load.
  rewrite section_options_cfg in Hraw. rewrite Hraw. cbn [mbind option_bind].
  destruct (_ && _); [|done].
  destruct H as (name & -> & H). exact H.
Qed.

(** The first loop: the store holds the first watcher of every section
    scanned, and [watchers] lists exactly the keys of the store. *)
Lemma first_pass_from l st0 st w :
  foldM (scan_section X cfg ge le) st0 l = (Ok st, w) ->
  ((forall sec wd, watchers_map st0 !! sec = Some wd ->
                   first_watcher X environ f sec = Some wd) ->
   forall sec wd, watchers_map st !! sec = Some wd ->
                  first_watcher X environ f sec = Some wd)
  /\ (forall sec wd, sec ∈ l -> first_watcher X environ f sec = Some wd ->
                     watchers_map st !! sec = Some wd)
  /\ (forall sec wd, watchers_map st0 !! sec = Some wd ->
                     first_watcher X environ f sec = Some wd ->
                     watchers_map st !! sec = Some wd)
  /\ ((forall r, r ∈ watchers st0 <-> is_Some (watchers_map st0 !! r)) ->
      forall r, r ∈ watchers st <-> is_Some (watchers_map st !! r)).
Proof.
  revert st0 w. induction l as [|x l IH]; intros st0 w H; cbn in H.
  - inv_step. split; [done|]. split; [|done].
    intros ? ? Hin. by apply elem_of_nil in Hin.
  - inv_step. apply scan_section_first in E.
    destruct (IH _ _ H) as (IH1 & IH2 & IH3 & IH4). clear IH.
    destruct (first_watcher X environ f x) as [wx|] eqn:Hx.
    + destruct E as [Ew Em]. split; [|split; [|split]].
      * intros Hst0. apply IH1. intros sec wd. rewrite Em.
        destruct (decide (x = sec)) as [->|Hne].
        -- rewrite lookup_insert_eq. intros [= <-]. done.
        -- rewrite lookup_insert_ne by done. apply Hst0.
      * intros sec wd Hin Hf. apply elem_of_cons in Hin as [->|Hin]; [|eauto].
        apply IH3; [|done]. rewrite Em, lookup_insert_eq. congruence.
      * intros sec wd Hst0 Hf. apply IH3; [|done]. rewrite Em.
        destruct (decide (x = sec)) as [->|Hne].
        -- rewrite lookup_insert_eq. congruence.
        -- by rewrite lookup_insert_ne.
      * intros Hst0. apply IH4. intros r. rewrite Ew, Em, elem_of_app, Hst0.
        rewrite list_elem_of_singleton.
        destruct (decide (x = r)) as [->|Hne].
        -- rewrite lookup_insert_eq. split; eauto.
        -- rewrite lookup_insert_ne by done. split; [|tauto].
           intros [?|?]; [done|congruence].
    + destruct E as [Ew Em]. rewrite Ew, Em in *.
      split; [done|]. split; [|by split].
      intros sec wd Hin Hf.
      apply elem_of_cons in Hin as [->|Hin]; [congruence|eauto].
Qed.

Lemma first_pass st w :
  foldM (scan_section X cfg ge le) managed_init (sections cfg) = (Ok st, w) ->
  (forall sec wd, watchers_map st !! sec = Some wd ->
                  first_watcher X environ f sec = Some wd)
  /\ (forall sec wd, sec ∈ f.*1 -> first_watcher X environ f sec = Some wd ->
                     watchers_map st !! sec = Some wd)
  /\ (forall r, r ∈ watchers st <-> is_Some (watchers_map st !! r)).
Proof.
  intros H. apply first_pass_from in H as (H1 & H2 & _ & H4).
  split; [|split].
  - apply H1. intros sec wd. cbn. by rewrite lookup_empty.
  - exact H2.
  - apply H4. intros r. cbn. rewrite lookup_empty. split.
    + intros Hin. by apply elem_of_nil in Hin.
    + by intros [? ?].
Qed.


(** *** The loop over the [env:] sections *)

Lemma env_updated_refl free w : env_updated free w w.
Proof. split; [done|]. intros e0 He. eauto. Qed.

Lemma update_watcher_env_updated free env_items
    (store0 store : gmap string dict) r store' w :
  (forall key, free key -> env_items !! key = None) ->
  (forall sec, option_Forall2 (env_updated free) (store0 !! sec) (store !! sec)) ->
  update_watcher_env env_items store r = (Ok store', w) ->
  forall sec, option_Forall2 (env_updated free) (store0 !! sec) (store' !! sec).
Proof.
  intros Hfree HP H sec. unfold update_watcher_env, deref in H.
  destruct (store !! r) as [wr|] eqn:Hr; cbn [default] in H;
    [|rewrite lookup_empty in H; by inv_step].
  change (id wr) with wr in H.
  destruct (wr !! "env") as [[| | | | | |e]|] eqn:He; try by inv_step.
  inv_step. destruct (decide (r = sec)) as [->|Hne];
    [|by rewrite lookup_insert_ne].
  rewrite lookup_insert_eq. specialize (HP sec). rewrite Hr in HP.
  inversion HP as [w0 ? [Hk Henv] |]; subst. constructor. split.
  - intros k Hkne. rewrite lookup_insert_ne by done. by apply Hk.
  - intros e0 He0. destruct (Henv e0 He0) as (e1 & He1 & Hkeys).
    rewrite He in He1. injection He1 as <-.
    eexists. split; [apply lookup_insert_eq|].
    intros key Hkey. unfold dict_update.
    rewrite lookup_union_r by auto. auto.
Qed.

Lemma env_section_updated wl (store0 store : gmap string dict) sec store' w :
  (forall sec, option_Forall2 (env_updated (env_free f)) (store0 !! sec) (store !! sec)) ->
  env_section X cfg wl store sec = (Ok store', w) ->
  forall sec, option_Forall2 (env_updated (env_free f)) (store0 !! sec) (store' !! sec).
Proof.
  intros HP H. unfold env_section in H.
  destruct (PyStr.startswith "env:" sec) eqn:Hsec; [|by inv_step].
  do 2 inv_step. apply items_Ok in E0 as (-> & raw & Hraw & _ & Hits).
  specialize (Hits eq_refl). subst v0.
  set (P := fun store : gmap string dict =>
              forall sec, option_Forall2 (env_updated (env_free f))
                            (store0 !! sec) (store !! sec)).
  revert H. apply (foldM_invariant P); [|exact HP].
  intros acc pattern acc' w' _ Hacc Hstep. unfold apply_env_pattern in Hstep.
  inv_step. revert Hstep. apply (foldM_invariant P); [|exact Hacc].
  intros acc1 r acc1' wr _ Hacc1 Hupd. unfold P in *.
  eapply update_watcher_env_updated; [|exact Hacc1|exact Hupd].
  intros key Hkey. apply lookup_dict_of_items_None.
  eapply Hkey; [|exact Hsec]. by rewrite <- section_options_cfg.
Qed.

Lemma env_pass wl (store0 store1 : gmap string dict) w :
  foldM (env_section X cfg wl) store0 (sections cfg) = (Ok store1, w) ->
  forall sec,
    option_Forall2 (env_updated (env_free f)) (store0 !! sec) (store1 !! sec).
Proof.
  apply (foldM_invariant
           (fun store => forall sec,
                option_Forall2 (env_updated (env_free f))
                  (store0 !! sec) (store !! sec))).
  - intros acc x acc' w' _ Hacc Hstep. by eapply env_section_updated.
  - intros sec. destruct (store0 !! sec); constructor. apply env_updated_refl.
Qed.

(** *** The second loop *)

Lemma configure_watcher_inv store sec store' w :
  configure_watcher X cfg ge store sec = (Ok store', w) ->
  if PyStr.startswith "watcher:" sec then
    exists wd e raw wd' w',
      store !! sec = Some wd
      /\ wd !! "env" = Some (VDict e)
      /\ section_options cfg sec = Some raw
      /\ foldM (apply_option X (dict_update ge e)) wd raw = (Ok wd', w')
      /\ store' = <[sec := wd']> store
  else store' = store.
Proof.
  unfold configure_watcher. intros H.
  destruct (PyStr.startswith "watcher:" sec); [|by inv_step].
  do 2 inv_step. inv_step.
  destruct (v !! "env") as [[| | | | | |e]|] eqn:He; try by inv_step.
  repeat inv_step.
  match goal with
  | E : items _ _ _ _ = _ |- _ =>
      apply items_Ok in E as (-> & raw & Hraw & _ & Hits)
  end.
  specialize (Hits eq_refl). subst. eauto 10.
Qed.

(** A property [Inv] of the watcher of section [sec] that one pass over
    the options of the section turns into [Post] holds as [Post] at the
    end of the loop; passes over other sections leave that watcher alone. *)
Lemma second_pass_target (Inv Post : dict -> Prop) sec raw :
  section_options cfg sec = Some raw ->
  (forall wd, Post wd -> Inv wd) ->
  (forall env wd wd' w, Inv wd ->
     foldM (apply_option X env) wd raw = (Ok wd', w) -> Post wd') ->
  forall l store store' w,
    foldM (configure_watcher X cfg ge) store l = (Ok store', w) ->
    ((exists wd, store !! sec = Some wd /\ Inv wd) ->
     exists wd, store' !! sec = Some wd /\ Inv wd)
    /\ ((exists wd, store !! sec = Some wd /\ Post wd) ->
        exists wd, store' !! sec = Some wd /\ Post wd)
    /\ (sec ∈ l -> PyStr.startswith "watcher:" sec = true ->
        (exists wd, store !! sec = Some wd /\ Inv wd) ->
        exists wd, store' !! sec = Some wd /\ Post wd).
Proof.
  intros Hraw Hweak Hpass.
  assert (forall x store store1 w,
             configure_watcher X cfg ge store x = (Ok store1, w) ->
             ((exists wd, store !! sec = Some wd /\ Inv wd) ->
              exists wd, store1 !! sec = Some wd /\ Inv wd)
             /\ ((exists wd, store !! sec = Some wd /\ Post wd) ->
                 exists wd, store1 !! sec = Some wd /\ Post wd)
             /\ (x = sec -> PyStr.startswith "watcher:" sec = true ->
                 (exists wd, store !! sec = Some wd /\ Inv wd) ->
                 exists wd, store1 !! sec = Some wd /\ Post wd)) as Hstep.
  { intros x store store1 w H. apply configure_watcher_inv in H.
    destruct (decide (x = sec)) as [->|Hne].
    - destruct (PyStr.startswith "watcher:" sec).
      + destruct H as (wd & e & raw' & wd' & w' & Hwd & _ & Hraw' & Hfold & ->).
        rewrite Hraw in Hraw'. injection Hraw' as <-.
        assert ((exists wd, store !! sec = Some wd /\ Inv wd) -> Post wd') as HP.
        { intros (wd0 & Hwd0 & HI). rewrite Hwd in Hwd0. injection Hwd0 as <-.
          eapply Hpass; eauto. }
        rewrite lookup_insert_eq. split; [|split].
        * intros HI. exists wd'. split; [done|]. by apply Hweak, HP.
        * intros (wd0 & Hwd0 & HPost). exists wd'. split; [done|].
          apply HP. exists wd0. split; [done|]. by apply Hweak.
        * intros _ _ HI. exists wd'. split; [done|]. by apply HP.
      + subst store1. split; [done|]. split; [done|]. done.
    - assert (store1 !! sec = store !! sec) as ->.
      { destruct (PyStr.startswith "watcher:" x); [|by subst].
        destruct H as (wd & e & raw' & wd' & w' & _ & _ & _ & _ & ->).
        by rewrite lookup_insert_ne. }
      split; [done|]. split; [done|]. done. }
  induction l as [|x l IH]; intros store store' w H; cbn in H.
  - inv_step. split; [done|]. split; [done|].
    intros Hin. by apply elem_of_nil in Hin.
  - inv_step. destruct (Hstep _ _ _ _ E) as (S1 & S2 & S3).
    destruct (IH _ _ _ H) as (I1 & I2 & I3).
    split; [auto|]. split; [auto|].
    intros Hin Hw HI. apply elem_of_cons in Hin as [->|Hin]; auto.
Qed.

Lemma foldM_apply_option_frame env wd raw wd' w k :
  foldM (apply_option X env) wd raw = (Ok wd', w) ->
  (forall opt, opt ∈ raw.*1 -> ~ touches opt k) ->
  wd' !! k = wd !! k.
Proof.
  intros H Hk. revert H.
  apply (foldM_invariant (fun w => w !! k = wd !! k)); [|done].
  intros acc kv acc' w' Hin Hacc Hstep. rewrite <- Hacc.
  eapply apply_option_frame; [done|]. apply Hk.
  apply list_elem_of_fmap. eauto.
Qed.


Lemma option_value_None (its : list (string * string)) (k : string) :
  option_value its k = None <-> k ∉ its.*1.
Proof.
  unfold option_value. induction its as [|[k' v] its IH]; cbn.
  - split; [intros _ Hin; by apply elem_of_nil in Hin | done].
  - destruct (String.eqb_spec k' k) as [->|Hne]; cbn.
    + split; [done|]. intros Hn. exfalso. apply Hn. by left.
    + rewrite IH. rewrite not_elem_of_cons. naive_solver.
Qed.

Lemma section_options_elem sec raw :
  section_options cfg sec = Some raw -> sec ∈ f.*1.
Proof.
  unfold section_options. cbn.
  destruct (List.find _ f) as [[s its]|] eqn:Hfind; [|done].
  intros _. apply find_some in Hfind as [Hin Heq].
  apply String.eqb_eq in Heq. cbn in Heq. subst s.
  apply list_elem_of_fmap. exists (sec, its). split; [done|].
  by apply list_elem_of_In.
Qed.

Lemma not_touches opt k : plain_key k -> opt <> k -> ~ touches opt k.
Proof.
  intros (Hr & Hh & Hs) Hne [Ht|[[_ Ht]|[[_ Ht]|[Hp [so Ht]]]]]; try done.
  apply split_dot_join in Ht. rewrite Ht in Hp. by rewrite Hs in Hp.
Qed.

(** The watcher of a section after the loop over the [env:] sections. *)
Lemma watcher_tracked st w3 wl store1 w4 r :
  foldM (scan_section X cfg ge le) managed_init (sections cfg) = (Ok st, w3) ->
  foldM (env_section X cfg wl) (watchers_map st) (sections cfg) = (Ok store1, w4) ->
  r ∈ watchers st ->
  exists wd0 wd1 raw,
    first_watcher X environ f r = Some wd0
    /\ options_of f r = Some raw
    /\ PyStr.startswith "watcher:" r = true
    /\ store1 !! r = Some wd1
    /\ env_updated (env_free f) wd0 wd1.
Proof.
  intros Hfirst Henv Hr.
  apply first_pass in Hfirst as (Hf1 & _ & Hf3).
  apply Hf3 in Hr as [wd0 Hwd0]. pose proof (Hf1 _ _ Hwd0) as Hfw.
  pose proof (env_pass _ _ _ _ Henv r) as Hupd. rewrite Hwd0 in Hupd.
  inversion Hupd as [? wd1 Hrel Heq1 Heq2|]; subst. symmetry in Heq2.
  exists wd0, wd1. pose proof Hfw as Hfw'. unfold first_watcher in Hfw'.
  destruct (options_of f r) as [raw|] eqn:Hraw; [|done].
  cbn [mbind option_bind] in Hfw'.
  destruct (PyStr.startswith "watcher:" r) eqn:Hw; [|done].
  by exists raw.
Qed.

(** A watcher section is in [watchers] after the first loop. *)
Lemma watcher_listed st w3 r wd0 :
  foldM (scan_section X cfg ge le) managed_init (sections cfg) = (Ok st, w3) ->
  first_watcher X environ f r = Some wd0 ->
  r ∈ watchers st.
Proof.
  intros Hfirst Hfw. apply first_pass in Hfirst as (_ & Hf2 & Hf3).
  apply Hf3. exists wd0. apply Hf2; [|done].
  unfold first_watcher in Hfw.
  destruct (options_of f r) as [raw|] eqn:Hraw; [|done].
  eapply section_options_elem. by rewrite section_options_cfg.
Qed.

(** The watcher of a section at the end of the second loop. *)
Lemma second_pass_at (Inv Post : dict -> Prop) store1 store2 w5 r raw wd1 :
  foldM (configure_watcher X cfg ge) store1 (sections cfg) = (Ok store2, w5) ->
  options_of f r = Some raw ->
  PyStr.startswith "watcher:" r = true ->
  store1 !! r = Some wd1 ->
  (forall wd, Post wd -> Inv wd) ->
  (forall env wd wd' w, Inv wd ->
     foldM (apply_option X env) wd raw = (Ok wd', w) -> Post wd') ->
  Inv wd1 ->
  exists wd2, store2 !! r = Some wd2 /\ Post wd2.
Proof.
  intros Hsecond Hraw Hw Hwd1 Hweak Hstep HI.
  destruct (second_pass_target Inv Post r raw Hraw Hweak Hstep
              _ _ _ _ Hsecond) as (_ & _ & Hpost).
  apply Hpost; [|done|eauto].
  eapply section_options_elem. by rewrite section_options_cfg.
Qed.

(** A plain key that the section does not set keeps, to the end of
    [get_config], the value it had after the [env:] sections. *)
Lemma watcher_key_kept store1 store2 w5 r raw wd1 k :
  foldM (configure_watcher X cfg ge) store1 (sections cfg) = (Ok store2, w5) ->
  options_of f r = Some raw ->
  PyStr.startswith "watcher:" r = true ->
  store1 !! r = Some wd1 ->
  plain_key k ->
  exists wd2,
    store2 !! r = Some wd2
    /\ (configured f r k = None -> wd2 !! k = wd1 !! k).
Proof.
  intros Hsecond Hraw Hw Hwd1 Hplain.
  set (Inv := fun wd : dict => configured f r k = None -> wd !! k = wd1 !! k).
  apply (second_pass_at Inv Inv _ _ _ _ _ _ Hsecond Hraw Hw Hwd1); [done| |done].
  intros env wd wd' w HI Hfold Hc. rewrite <- (HI Hc).
  eapply foldM_apply_option_frame; [exact Hfold|].
  intros opt Hopt. apply not_touches; [done|]. intros ->.
  unfold configured in Hc. rewrite Hraw in Hc.
  by apply option_value_None in Hc.
Qed.

End Run.



Lemma plain_key_by_first_letter (c : ascii) (k : string) :
  (if ascii_dec "s" c then false else true) = true ->
  String c k <> "rlimits" -> String c k <> "hooks" ->
  plain_key (String c k).
Proof.
  intros Hc Hr Hh. split; [done|]. split; [done|]. intros so.
  unfold PyStr.startswith.
  change (String c k +:+ "." +:+ so) with (String c (k +:+ "." +:+ so)).
  rewrite !prefix_cons. by destruct (ascii_dec "s" c).
Qed.

Lemma get_config_watchers environ f snap ws :
  get_config X environ f = (Ok snap, ws) ->
  exists ge le w_env st store1 store2 w3 w4 w5,
    let cfg := set_env (read_config environ f) ge in
    let wl := sort_by_field X _ (deref (watchers_map st)) (watchers st) in
    load_env X environ (read_config environ f) = (Ok (ge, le), w_env)
    /\ foldM (scan_section X cfg ge le) managed_init (sections cfg) = (Ok st, w3)
    /\ foldM (env_section X cfg wl) (watchers_map st) (sections cfg)
       = (Ok store1, w4)
    /\ foldM (configure_watcher X cfg ge) store1 (sections cfg) = (Ok store2, w5)
    /\ snap !! "watchers" = Some (VList (VDict <$> (deref store2 <$> wl))).
Proof.
  intros H.
  apply get_config_inv in H
    as (ge & le & config & st & store1 & store2 & w1 & w2 & w3 & w4 & w5
        & Henv & _ & H1 & H2 & H3 & -> & _).
  exists ge, le, w1, st, store1, store2, w3, w4, w5. cbv zeta.
  repeat (split; [done|]).
  rewrite !lookup_insert_ne by discriminate. apply lookup_insert_eq.
Qed.


End WatcherFacts.

(** *** The environment of a watcher *)

Section EnvFacts.
Import Config.
Variable X : Externals.

(** Lines 157-164: a key that the [env] section does not set is absent
    from the local environment and has in the global one the value of
    the process environment. *)
Lemma load_env_lookup environ f ge le w k :
  load_env X environ (read_config environ f) = (Ok (ge, le), w) ->
  configured f "env" k = None ->
  le !! k = None /\ ge !! k = VStr <$> environ !! k.
Proof.
  unfold load_env. intros H Hc.
  destruct (bool_decide _); repeat inv_step.
  - match goal with
    | E : items _ _ _ _ = _ |- _ =>
        apply (items_Ok X environ f (VStr <$> environ)) in E
          as (_ & raw & Hraw & Hkeys & _)
    end.
    rewrite section_options_cfg in Hraw.
    unfold configured in Hc. rewrite Hraw in Hc.
    apply option_value_None in Hc. rewrite <- Hkeys in Hc.
    assert (dict_update ∅ (dict_of_items v) !! k = None) as Hle.
    { unfold dict_update. apply lookup_union_None. split; [|done].
      by apply lookup_dict_of_items_None. }
    injection H as <- <-. split; [done|].
    unfold dict_update at 1. rewrite lookup_union_r by done.
    apply lookup_fmap.
  - injection H as <- <-. split; [done|]. apply lookup_fmap.
Qed.

(** A section [watcher:name] that sets an option has a first watcher. *)
Lemma first_watcher_some environ f name opt :
  is_Some (configured f ("watcher:" +:+ name) opt) ->
  opt <> "__name__" ->
  first_watcher X environ f ("watcher:" +:+ name)
  = Some (initial_watcher X name
            (default false
               (configured_bool X environ f ("watcher:" +:+ name) "copy_env"))
            (global_env_of X environ f) (local_env_of X environ f)).
Proof.
  intros [v Hv] Hopt. unfold first_watcher. unfold configured in Hv.
  destruct (options_of f ("watcher:" +:+ name)) as [raw|]; [|done].
  cbn [mbind option_bind] in Hv |- *.
  unfold PyStr.startswith. rewrite prefix_app. rewrite split_watcher.
  assert (is_empty_section (dict_of_items raw) = false) as ->; [|done].
  assert (opt ∈ dom (dict_of_items raw)) as Hdom.
  { rewrite dom_dict_of_items. apply elem_of_list_to_set.
    destruct (decide (opt ∈ raw.*1)) as [|Hn]; [done|].
    apply option_value_None in Hn. congruence. }
  unfold is_empty_section. apply orb_false_intro; apply bool_decide_eq_false_2.
  - intros He. rewrite He in Hdom. set_solver.
  - intros He. rewrite He in Hdom. set_solver.
Qed.

(** X4 (the environment that claim C7 is about, as the code has it).
    Whenever [get_config] returns, for a
    watcher section that does not set an option [env], in a file whose
    [env] and [env:] sections do not set [PATH]: the environment recorded
    for the watcher has the [PATH] of the parent process when [copy_env]
    is true for the watcher and has no [PATH] otherwise; [copy_path]
    plays no part. *)
Theorem watcher_env_follows_copy_env environ f snap ws name opt path :
  sort_permutes X ->
  get_config X environ f = (Ok snap, ws) ->
  is_Some (configured f ("watcher:" +:+ name) opt) ->
  opt <> "__name__" ->
  configured f ("watcher:" +:+ name) "env" = None ->
  environ !! "PATH" = Some path ->
  configured f "env" "PATH" = None ->
  env_free f "PATH" ->
  exists (l : list dict) (wd e : dict),
    snap !! "watchers" = Some (VList (VDict <$> l))
    /\ wd ∈ l
    /\ (configured f ("watcher:" +:+ name) "name" = None ->
        wd !! "name" = Some (VStr name))
    /\ wd !! "env" = Some (VDict e)
    /\ e !! "PATH"
       = if default false
              (configured_bool X environ f ("watcher:" +:+ name) "copy_env")
         then Some (VStr path) else None.
Proof.
  intros Hperm H Hset Hopt Henv Hpath Hlocal Hfree.
  pose proof (first_watcher_some environ f name opt Hset Hopt) as Hfw.
  apply get_config_watchers in H
    as (ge & le & w_env & st & store1 & store2 & w3 & w4 & w5
        & Hload & H1 & H2 & H3 & Hsnap).
  cbv zeta in *. set (sec := "watcher:" +:+ name) in *.
  pose proof (watcher_listed X environ f ge le w_env Hload _ _ _ _ H1 Hfw) as Hin.
  destruct (watcher_tracked X environ f ge le w_env Hload _ _ _ _ _ sec H1 H2 Hin)
    as (wd0 & wd1 & raw & Hwd0 & Hraw & Hw & Hwd1 & [Hsame Hupd]).
  rewrite Hfw in Hwd0. injection Hwd0 as <-.
  rewrite (global_env_of_load X _ _ _ _ _ Hload) in Hupd, Hsame.
  rewrite (local_env_of_load X _ _ _ _ _ Hload) in Hupd, Hsame.
  destruct (Hupd _ ltac:(apply lookup_insert_eq)) as (e1 & He1 & Hkeys).
  destruct (watcher_key_kept X environ f ge _ _ _ sec raw wd1 "env" H3 Hraw Hw Hwd1)
    as (wd2 & Hwd2 & Hkenv); [by apply plain_key_by_first_letter|].
  destruct (watcher_key_kept X environ f ge _ _ _ sec raw wd1 "name" H3 Hraw Hw Hwd1)
    as (wd2' & Hwd2' & Hkname); [by apply plain_key_by_first_letter|].
  rewrite Hwd2 in Hwd2'. injection Hwd2' as <-.
  eexists _, wd2, e1. split; [exact Hsnap|]. split; [|split; [|split]].
  - apply list_elem_of_fmap. exists sec. split.
    + unfold deref. by rewrite Hwd2.
    + by rewrite (Hperm string (deref (watchers_map st)) (watchers st)).
  - intros Hc. rewrite (Hkname Hc), Hsame by done.
    unfold initial_watcher. by rewrite !lookup_insert_ne, lookup_insert_eq by done.
  - by rewrite (Hkenv Henv).
  - rewrite (Hkeys "PATH" Hfree).
    destruct (load_env_lookup _ _ _ _ _ "PATH" Hload Hlocal) as [Hle Hge].
    destruct (default false _); [|done]. by rewrite Hge, Hpath.
Qed.

End EnvFacts.

(** *** The example platform *)

Lemma insert_by_perm {A} (key : A -> string) (x : A) (l : list A) :
  Platform.insert_by key x l ≡ₚ x :: l.
Proof.
  induction l as [|y t IH]; cbn; [done|].
  destruct (String.leb (key x) (key y)); [done|].
  rewrite IH. apply Permutation_swap.
Qed.

Lemma sort_by_perm {A} (key : A -> string) (l : list A) :
  Platform.sort_by key l ≡ₚ l.
Proof.
  induction l as [|x t IH]; cbn; [done|].
  by rewrite insert_by_perm, IH.
Qed.

Lemma platform_sort_permutes (rlim : option Z) :
  sort_permutes (Platform.externals rlim).
Proof. intros A view l. apply sort_by_perm. Qed.

(** A file without [env:] sections sets no key in one. *)
Lemma env_free_without_env_sections (f : Config.file) (key : string) :
  forallb (fun si => negb (PyStr.startswith "env:" si.1)) f = true ->
  env_free f key.
Proof.
  intros Hall sec raw Hraw Hsec. exfalso.
  unfold options_of, Config.section_options in Hraw. cbn in Hraw.
  destruct (List.find _ f) as [[s its]|] eqn:Hfind; [|done].
  apply find_some in Hfind as [Hin Heq]. apply String.eqb_eq in Heq.
  cbn in Heq. subst s.
  rewrite forallb_forall in Hall. specialize (Hall _ Hin).
  change (negb (PyStr.startswith "env:" sec) = true) in Hall.
  by rewrite Hsec in Hall.
Qed.

Lemma returns_Ok {A} (m : M A) :
  returns m = true -> exists a w, m = (Ok a, w).
Proof. destruct m as [[a|e] w]; [eauto | discriminate]. Qed.

Lemma example_file_returns :
  returns (Config.get_config Platform.linux Platform.environ
             Platform.example_file) = true.
Proof. vm_compute. reflexivity. Qed.

Lemma get_config_snapshot_shape_witness :
  exists snap ws,
    Config.get_config Platform.linux Platform.environ Platform.example_file
    = (Ok snap, ws)
    /\ is_Some (snap !! "pidfile")
    /\ exists l : list dict, snap !! "watchers" = Some (VList (VDict <$> l)).
Proof.
  destruct (returns_Ok _ example_file_returns) as (snap & ws & E).
  exists snap, ws. split; [done|].
  destruct (get_config_snapshot_shape _ _ _ _ _ E) as [Hk Hl].
  split.
  - rewrite Forall_forall in Hk. apply Hk. set_solver.
  - rewrite Forall_forall in Hl. apply Hl. set_solver.
Defined.

Lemma stats_endpoint_enables_statsd_witness :
  exists snap ws,
    Config.get_config Platform.linux Platform.environ Platform.example_file
    = (Ok snap, ws)
    /\ snap !! "statsd" = Some (VBool true).
Proof.
  destruct (returns_Ok _ example_file_returns) as (snap & ws & E).
  exists snap, ws. split; [done|].
  exact (proj1 (stats_endpoint_enables_statsd _ _ _ _ _ E)).
Defined.


Lemma watcher_env_follows_copy_env_witness :
  exists snap ws (l : list dict) (wd e : dict),
    Config.get_config Platform.linux Platform.environ Platform.example_file
    = (Ok snap, ws)
    /\ snap !! "watchers" = Some (VList (VDict <$> l))
    /\ wd ∈ l
    /\ wd !! "name" = Some (VStr "b")
    /\ wd !! "env" = Some (VDict e)
    /\ e !! "PATH" = None.
Proof.
  destruct (returns_Ok _ example_file_returns) as (snap & ws & E).
  destruct (watcher_env_follows_copy_env Platform.linux Platform.environ
              Platform.example_file snap ws "b" "cmd" "/usr/bin:/bin"
              (platform_sort_permutes _) E)
    as (l & wd & e & Hl & Hin & Hname & Henv & Hpath).
  - exists "sleep". reflexivity.
  - discriminate.
  - reflexivity.
  - reflexivity.
  - reflexivity.
  - by apply env_free_without_env_sections.
  - exists snap, ws, l, wd, e. repeat split; try done. by apply Hname.
Defined.

(** *** Resource limits *)

Section RlimitFacts.
Import Config.
Variable X : Externals.

(** An option [rlimit_t] runs lines 295-297. *)
Lemma apply_option_rlimit env w t val :
  apply_option X env w ("rlimit_" +:+ t, val)
  = (do v <- rlimit_value X (Some (replace_gnu_args X val env));
     set_sub w "rlimits" t v).
Proof.
  unfold apply_option. cbn [fst snd expand_vars]. cbv zeta.
  repeat match goal with
    | |- context [if ?b then _ else _] =>
        let b' := eval vm_compute in b in
        constr_eq b' false; change b with false; cbv iota
    end.
  unfold PyStr.startswith. rewrite prefix_app. reflexivity.
Qed.

Lemma apply_option_rlimits_other env w kv w' ws :
  apply_option X env w kv = (Ok w', ws) ->
  kv.1 <> "rlimits" ->
  PyStr.startswith "rlimit_" kv.1 = false ->
  w' !! "rlimits" = w !! "rlimits".
Proof.
  intros H Hne Hp. eapply apply_option_frame; [exact H|].
  intros [Ht|[[Ht _]|[[_ Ht]|[Hs [so Ht]]]]]; try done; [congruence|].
  apply split_dot_join in Ht. rewrite Ht in Hs. discriminate.
Qed.

(** One option of a watcher section, seen from the entry [limit] of
    [rlimits]: [Good w] says that the entry holds the limit value of the
    text [val]. *)
Lemma apply_option_rlimits env w opt v w' ws limit val :
  let Good := fun w : dict =>
    exists env' rl x,
      w !! "rlimits" = Some (VDict rl)
      /\ rlimit_value X (Some (replace_gnu_args X val env')) = (Ok x, [])
      /\ rl !! limit = Some x in
  apply_option X env w (opt, v) = (Ok w', ws) ->
  opt <> "rlimits" ->
  (exists rl, w !! "rlimits" = Some (VDict rl)) ->
  (exists rl, w' !! "rlimits" = Some (VDict rl))
  /\ (opt <> "rlimit_" +:+ limit -> Good w -> Good w')
  /\ (opt = "rlimit_" +:+ limit -> v = val -> Good w').
Proof.
  intros Good H Hne [rl Hrl]. unfold Good.
  destruct (PyStr.startswith "rlimit_" opt) eqn:Hp.
  - apply prefix_drop in Hp. cbn [String.length] in Hp.
    set (t := PyStr.drop 7 opt) in *. clearbody t. subst opt.
    rewrite apply_option_rlimit in H. inv_step.
    apply set_sub_Ok in H as (d & Hd & -> & _).
    rewrite Hrl in Hd. injection Hd as <-. rewrite lookup_insert_eq.
    split; [eauto|]. split.
    + intros Hother (env' & rl' & x & Hrl' & Hx & Hl).
      rewrite Hrl in Hrl'. injection Hrl' as <-.
      exists env'. eexists _, x. split; [done|]. split; [done|].
      rewrite lookup_insert_ne; [done|]. intros ->. done.
    + intros Heq ->.
      assert (t = limit) as -> by (by injection Heq).
      match goal with
      | E : rlimit_value _ _ = (Ok ?x, ?w0) |- _ =>
          assert (w0 = []) as ->
            by (unfold rlimit_value in E;
                repeat match type of E with
                  | match ?y with _ => _ end = _ => destruct y
                  end; repeat inv_step; done)
      end.
      exists env. eexists _, _. split; [done|]. split; [done|].
      apply lookup_insert_eq.
  - pose proof (apply_option_rlimits_other _ _ _ _ _ H Hne Hp) as Hsame.
    rewrite Hsame. split; [eauto|]. split; [done|].
    intros ->. unfold PyStr.startswith in Hp. by rewrite prefix_app in Hp.
Qed.

(** One pass over the options of a section that sets [rlimit_limit] to
    [val]. *)
Lemma rlimits_pass env raw limit val :
  NoDup raw.*1 ->
  "rlimits" ∉ raw.*1 ->
  let Good := fun w : dict =>
    exists env' rl x,
      w !! "rlimits" = Some (VDict rl)
      /\ rlimit_value X (Some (replace_gnu_args X val env')) = (Ok x, [])
      /\ rl !! limit = Some x in
  forall wd wd' w,
    (forall val', ("rlimit_" +:+ limit, val') ∈ raw -> val' = val) ->
    (exists rl, wd !! "rlimits" = Some (VDict rl)) ->
    Good wd \/ "rlimit_" +:+ limit ∈ raw.*1 ->
    foldM (apply_option X env) wd raw = (Ok wd', w) ->
    Good wd'.
Proof.
  intros Hnd Hno Good.
  induction raw as [|[opt v] raw IH]; intros wd wd' w Hone Hdict Hgood H;
    cbn in H.
  - inv_step. destruct Hgood as [Hg|Hin]; [done|]. by apply elem_of_nil in Hin.
  - inv_step. cbn in Hnd, Hno. apply NoDup_cons in Hnd as [Hfresh Hnd].
    apply not_elem_of_cons in Hno as [Hne Hno].
    destruct (apply_option_rlimits _ _ _ _ _ _ limit val E ltac:(done) Hdict)
      as (Hdict' & Hkeep & Hset).
    eapply (IH Hnd Hno); [| exact Hdict' | | exact H].
    + intros val' Hin. apply Hone. by right.
    + destruct (decide (opt = "rlimit_" +:+ limit)) as [->|Hother].
      * left. apply Hset; [done|]. apply Hone. by left.
      * destruct Hgood as [Hg|Hin]; [left; by apply Hkeep|].
        right. cbn in Hin. apply elem_of_cons in Hin as [?|?]; [congruence|done].
Qed.

(** X5.  Whenever [get_config] returns, for a watcher section with
    distinct option names, none of them [rlimits], that sets
    [rlimit_limit] to the text [val]: the watcher of the section in the
    snapshot has under [rlimits] a dictionary whose entry [limit] is
    [rlimit_value] of the expanded text.  So the text [-1], when left
    alone by the expansion and read by [int] as -1, gives the integer
    -1; [RLIM_INFINITY] is what an empty text gives. *)
Theorem rlimit_option_recorded environ f snap ws name raw limit val :
  sort_permutes X ->
  get_config X environ f = (Ok snap, ws) ->
  options_of f ("watcher:" +:+ name) = Some raw ->
  NoDup raw.*1 ->
  "rlimits" ∉ raw.*1 ->
  ("rlimit_" +:+ limit, val) ∈ raw ->
  exists (l : list dict) (wd rl env : dict) (x : value),
    snap !! "watchers" = Some (VList (VDict <$> l))
    /\ wd ∈ l
    /\ ("name" ∉ raw.*1 -> wd !! "name" = Some (VStr name))
    /\ wd !! "rlimits" = Some (VDict rl)
    /\ rl !! limit = Some x
    /\ rlimit_value X (Some (replace_gnu_args X val env)) = (Ok x, [])
    /\ (replace_gnu_args X val env = "-1" -> py_int X "-1" = Some (-1) ->
        x = VInt (-1))
    /\ (forall inf, replace_gnu_args X val env = "" -> resource X = Some inf ->
                    x = VInt inf).
Proof.
  intros Hperm H Hraw Hnd Hno Hin.
  assert (first_watcher X environ f ("watcher:" +:+ name)
          = Some (initial_watcher X name
                    (default false
                       (configured_bool X environ f ("watcher:" +:+ name)
                          "copy_env"))
                    (global_env_of X environ f) (local_env_of X environ f)))
    as Hfw.
  { apply (first_watcher_some X environ f name ("rlimit_" +:+ limit)); [|done].
    unfold configured. rewrite Hraw. cbn [mbind option_bind].
    destruct (option_value raw ("rlimit_" +:+ limit)) eqn:Hv; [eauto|].
    apply option_value_None in Hv. exfalso. apply Hv.
    apply list_elem_of_fmap. by exists ("rlimit_" +:+ limit, val). }
  apply get_config_watchers in H
    as (ge & le & w_env & st & store1 & store2 & w3 & w4 & w5
        & Hload & H1 & H2 & H3 & Hsnap).
  cbv zeta in *. set (sec := "watcher:" +:+ name) in *.
  pose proof (watcher_listed X environ f ge le w_env Hload _ _ _ _ H1 Hfw) as Hl.
  destruct (watcher_tracked X environ f ge le w_env Hload _ _ _ _ _ sec H1 H2 Hl)
    as (wd0 & wd1 & raw' & Hwd0 & Hraw' & Hw & Hwd1 & [Hsame Hupd]).
  rewrite Hraw in Hraw'. injection Hraw' as <-.
  rewrite Hfw in Hwd0. injection Hwd0 as <-.
  set (Good := fun w : dict =>
    exists env' rl x,
      w !! "rlimits" = Some (VDict rl)
      /\ rlimit_value X (Some (replace_gnu_args X val env')) = (Ok x, [])
      /\ rl !! limit = Some x).
  set (Dict := fun w : dict => exists rl, w !! "rlimits" = Some (VDict rl)).
  destruct (second_pass_at X environ f ge Dict Good _ _ _ sec raw wd1
              H3 Hraw Hw Hwd1) as (wd2 & Hwd2 & HG).
  { intros wd (env' & rl & x & Hrl & _). by exists rl. }
  { intros env wd wd' w HD Hfold.
    eapply (rlimits_pass env raw limit val Hnd Hno); [|exact HD| |exact Hfold].
    - intros val' Hin'.
      assert (forall (l : list (string * string)) k a b,
                NoDup l.*1 -> (k, a) ∈ l -> (k, b) ∈ l -> a = b) as Huniq.
      { clear. induction l as [|[k' c] l IH]; intros k a b Hnd Ha Hb.
        - by apply elem_of_nil in Ha.
        - cbn in Hnd. apply NoDup_cons in Hnd as [Hfresh Hnd].
          apply elem_of_cons in Ha as [Ha|Ha];
            apply elem_of_cons in Hb as [Hb|Hb]; simplify_eq; try done.
          + exfalso. apply Hfresh. apply list_elem_of_fmap. by exists (k', b).
          + exfalso. apply Hfresh. apply list_elem_of_fmap. by exists (k', a).
          + eauto. }
      eapply Huniq; eauto.
    - right. apply list_elem_of_fmap. by exists ("rlimit_" +:+ limit, val). }
  { exists ∅. rewrite Hsame by done. unfold initial_watcher.
    rewrite !lookup_insert_ne by done. reflexivity. }
  destruct HG as (env & rl & x & Hrl & Hx & Hlim).
  destruct (watcher_key_kept X environ f ge _ _ _ sec raw wd1 "name" H3 Hraw Hw Hwd1)
    as (wd2' & Hwd2' & Hkname); [by apply plain_key_by_first_letter|].
  rewrite Hwd2 in Hwd2'. injection Hwd2' as <-.
  eexists _, wd2, rl, env, x. split; [exact Hsnap|].
  split; [|split; [|split; [done|split; [done|split; [done|split]]]]].
  - apply list_elem_of_fmap. exists sec. split.
    + unfold deref. by rewrite Hwd2.
    + by rewrite (Hperm string (deref (watchers_map st)) (watchers st)).
  - intros Hn. rewrite Hkname, Hsame by
      (first [done | unfold configured; rewrite Hraw; by apply option_value_None]).
    unfold initial_watcher. by rewrite !lookup_insert_ne, lookup_insert_eq by done.
  - intros Hv Hint. rewrite Hv in Hx. unfold rlimit_value in Hx.
    destruct (resource X); rewrite Hint in Hx; cbn in Hx; by injection Hx.
  - intros inf Hv Hres. rewrite Hv in Hx. unfold rlimit_value in Hx.
    rewrite Hres in Hx. by injection Hx.
Qed.

End RlimitFacts.

Lemma rlimit_option_recorded_witness :
  exists snap ws (l : list dict) (wd rl : dict),
    Config.get_config Platform.darwin Platform.environ Platform.example_file
    = (Ok snap, ws)
    /\ wd ∈ l
    /\ wd !! "name" = Some (VStr "b")
    /\ wd !! "rlimits" = Some (VDict rl)
    /\ rl !! "nofile" = Some (VInt (-1)).
Proof.
  assert (returns (Config.get_config Platform.darwin Platform.environ
                     Platform.example_file) = true) as Hret
    by (vm_compute; reflexivity).
  destruct (returns_Ok _ Hret) as (snap & ws & E).
  destruct (rlimit_option_recorded Platform.darwin Platform.environ Platform.example_file
              snap ws "b"
              [("cmd", "sleep"); ("priority", "1"); ("rlimit_nofile", "-1");
               ("copy_path", "true")] "nofile" "-1"
              (platform_sort_permutes _) E eq_refl)
    as (l & wd & rl & env & x & _ & Hin & Hname & Hrl & Hlim & _ & Hminus & _).
  - apply (bool_decide_unpack _); vm_compute; exact I.
  - apply (bool_decide_unpack _); vm_compute; exact I.
  - apply (bool_decide_unpack _); vm_compute; exact I.
  - exists snap, ws, l, wd, rl.
    split; [exact E|]. split; [exact Hin|]. split; [|split; [exact Hrl|]].
    + apply Hname. apply (bool_decide_unpack _); vm_compute; exact I.
    + rewrite Hlim. f_equal. exact (Hminus eq_refl eq_refl).
Defined.


(** *** Empty watcher sections *)

Section EmptySectionFacts.
Import Config.
Variable X : Externals.

Lemma second_pass_missing environ f ge sec l store store' w :
  PyStr.startswith "watcher:" sec = true ->
  store !! sec = None ->
  foldM (configure_watcher X (set_env (read_config environ f) ge) ge) store l
  = (Ok store', w) ->
  sec ∉ l.
Proof.
  intros Hw. revert store w. induction l as [|x l IH]; intros store w Hnone H.
  - apply not_elem_of_nil.
  - cbn in H. inv_step.
    match goal with
    | E : configure_watcher _ _ _ _ _ = _ |- _ =>
        apply (configure_watcher_inv X environ f ge) in E; rename E into Hstep
    end.
    apply not_elem_of_cons. split.
    + intros <-. rewrite Hw in Hstep.
      destruct Hstep as (wd & _ & _ & _ & _ & Hsome & _). congruence.
    + eapply IH; [|exact H].
      destruct (PyStr.startswith "watcher:" x); [|by subst].
      destruct Hstep as (wd & e & raw & wd' & w' & Hsome & _ & _ & _ & ->).
      rewrite lookup_insert_ne; [done|]. intros ->. congruence.
Qed.

(** X6.  A file with a watcher section that has no option (or the only
    key [__name__]) makes [get_config] raise: the first loop skips the
    section, and the second loop looks it up in [watchers_map]. *)
Theorem empty_watcher_section_raises environ f name raw :
  options_of f ("watcher:" +:+ name) = Some raw ->
  is_empty_section (dict_of_items raw) = true ->
  returns (get_config X environ f) = false.
Proof.
  intros Hraw Hempty.
  destruct (get_config X environ f) as [[snap|e] ws] eqn:H; [|done].
  exfalso.
  apply get_config_watchers in H
    as (ge & le & w_env & st & store1 & store2 & w3 & w4 & w5
        & Hload & H1 & H2 & H3 & _).
  cbv zeta in *. set (sec := "watcher:" +:+ name) in *.
  assert (first_watcher X environ f sec = None) as Hfw.
  { unfold first_watcher. rewrite Hraw. cbn [mbind option_bind].
    by rewrite Hempty, andb_false_r. }
  assert (watchers_map st !! sec = None) as Hmap.
  { apply (first_pass X environ f ge le w_env Hload) in H1 as (Hf1 & _).
    destruct (watchers_map st !! sec) as [wd|] eqn:Hwd; [|done].
    apply Hf1 in Hwd. congruence. }
  assert (store1 !! sec = None) as Hstore.
  { pose proof (env_pass X environ f ge _ _ _ _ H2 sec) as Hrel.
    rewrite Hmap in Hrel. by inversion Hrel. }
  eapply (second_pass_missing environ f ge sec); [|exact Hstore|exact H3|].
  - unfold PyStr.startswith. apply prefix_app.
  - eapply (section_options_elem environ f ge). exact Hraw.
Qed.

End EmptySectionFacts.

Lemma empty_watcher_section_raises_witness :
  Config.get_config Platform.linux Platform.environ
    [("watcher:idle", []); ("watcher:a", [("cmd", "sleep 2")])]
  = (Raise KeyError, []).
Proof.
  pose proof (empty_watcher_section_raises Platform.linux Platform.environ
                [("watcher:idle", []); ("watcher:a", [("cmd", "sleep 2")])]
                "idle" [] eq_refl eq_refl) as H.
  destruct (Config.get_config _ _ _) as [[snap|e] ws] eqn:E; [discriminate H|].
  vm_compute in E. exact (eq_sym E).
Defined.

(** ** share.py: what [os_open] passes to [CreateFile] *)

Section ShareCallFacts.
Import Share.

Lemma land_lor_same (a b : Z) : Z.land (Z.lor a b) b = b.
Proof.
  apply Z.bits_inj'. intros i Hi. rewrite Z.land_spec, Z.lor_spec.
  destruct (Z.testbit a i), (Z.testbit b i); reflexivity.
Qed.

Lemma land_lor_keep (a b c : Z) :
  Z.land a c = c -> Z.land (Z.lor a b) c = c.
Proof.
  intros H. apply Z.bits_inj'. intros i Hi.
  apply (f_equal (fun x => Z.testbit x i)) in H.
  rewrite Z.land_spec in H. rewrite Z.land_spec, Z.lor_spec.
  destruct (Z.testbit a i), (Z.testbit b i), (Z.testbit c i);
    try reflexivity; discriminate.
Qed.

Lemma land_lor_left (a b : Z) : Z.land (Z.lor a b) a = a.
Proof.
  apply Z.bits_inj'. intros i Hi. rewrite Z.land_spec, Z.lor_spec.
  destruct (Z.testbit a i), (Z.testbit b i); reflexivity.
Qed.

Lemma or_if_set (flags bit a b : Z) :
  Z.land flags bit <> 0 -> or_if flags bit a b = Z.lor a b.
Proof. intros H. unfold or_if. by destruct (Z.eqb_spec (Z.land flags bit) 0). Qed.

Lemma or_if_unset (flags bit a b : Z) :
  Z.land flags bit = 0 -> or_if flags bit a b = a.
Proof. intros H. unfold or_if. by rewrite H. Qed.

Lemma or_if_keep (flags bit a b c : Z) :
  Z.land a c = c -> Z.land (or_if flags bit a b) c = c.
Proof.
  intros H. unfold or_if. destruct (negb _); [by apply land_lor_keep|done].
Qed.




(** X8.  The call of [CreateFile] that [os_open] makes: the share mode
    has no bit outside [FILE_SHARE_VALID_FLAGS]; with [O_TEMPORARY] in
    [flags] it includes [FILE_SHARE_DELETE], the access includes [DELETE]
    and the attributes [FILE_FLAG_DELETE_ON_CLOSE]; and the descriptor is
    opened with [flags | O_NOINHERIT]. *)
Theorem os_open_call_flags :
  forall (file : filename) (flags mode share_flags : Z) (call : CreateFile)
         (warned : bool),
    os_open file (Int flags) (Int mode) share_flags = inl (call, warned) ->
    Z.land (cf_share call) (Z.lnot FILE_SHARE_VALID_FLAGS) = 0
    /\ Z.land (cf_share call) share_flags = share_flags
    /\ (Z.land flags O_TEMPORARY <> 0 ->
        Z.land (cf_share call) FILE_SHARE_DELETE = FILE_SHARE_DELETE
        /\ Z.land (cf_access call) DELETE = DELETE
        /\ Z.land (cf_attrib call) FILE_FLAG_DELETE_ON_CLOSE
           = FILE_FLAG_DELETE_ON_CLOSE)
    /\ (Z.land flags O_TEMPORARY = 0 -> cf_share call = share_flags)
    /\ osfhandle_flags call = Z.lor flags O_NOINHERIT.
Proof.
  intros file flags mode share_flags call warned H. unfold os_open in H.
  cbn [isinstance_int negb andb] in H.
  destruct (Z.eqb_spec (Z.land share_flags (Z.lnot FILE_SHARE_VALID_FLAGS)) 0)
    as [H0|Hne]; cbn [negb] in H; [|discriminate].
  destruct file as [s|s]; cbv beta iota zeta in H;
    destruct (lookup_int (Z.land flags _ACCESS_MASK) _ACCESS_MAP) as [af|];
    try discriminate;
    destruct (lookup_int (Z.land flags _CREATE_MASK) _CREATE_MAP) as [cf|];
    try discriminate;
    destruct (negb (Z.land flags O_CREAT =? 0)); cbv beta iota zeta in H;
    injection H as <- <-; cbn [cf_share cf_access cf_attrib osfhandle_flags].
  all: split;
    [unfold or_if; destruct (negb _);
       [rewrite Z.land_lor_distr_l, H0; reflexivity | exact H0] |].
  all: split;
    [unfold or_if; destruct (negb _);
       [apply land_lor_left | apply Z.land_diag] |].
  all: split;
    [intros Ht; rewrite !(or_if_set flags O_TEMPORARY) by done;
     split; [apply land_lor_same|]; split; [apply land_lor_same|];
     repeat apply or_if_keep; apply land_lor_same |].
  all: split; [intros Ht; by apply or_if_unset | reflexivity].
Qed.

Lemma os_open_call_flags_witness :
  exists call warned,
    os_open (Str "circus.log") (Int (Z.lor O_WRONLY (Z.lor O_CREAT O_TEMPORARY)))
      (Int 438) FILE_SHARE_READ = inl (call, warned)
    /\ Z.land (cf_share call) FILE_SHARE_DELETE = FILE_SHARE_DELETE.
Proof.
  destruct (os_open (Str "circus.log")
              (Int (Z.lor O_WRONLY (Z.lor O_CREAT O_TEMPORARY))) (Int 438)
              FILE_SHARE_READ) as [[call warned]|e] eqn:E;
    [|vm_compute in E; discriminate E].
  exists call, warned. split; [reflexivity|].
  destruct (os_open_call_flags _ _ _ _ _ _ E) as (_ & _ & Ht & _).
  apply Ht. vm_compute. discriminate.
Defined.

End ShareCallFacts.

(** ** share.py: creation disposition and attributes *)

Section ShareTableFacts.
Import Share.

Lemma land_bit (a n : Z) :
  0 <= n ->
  Z.land a (Z.shiftl 1 n) = 0 \/ Z.land a (Z.shiftl 1 n) = Z.shiftl 1 n.
Proof.
  intros Hn. rewrite land_shiftl_r by done.
  assert (Z.land (Z.shiftr a n) 1 = 0 \/ Z.land (Z.shiftr a n) 1 = 1)
    as [-> | ->].
  { pose proof (Z.land_ones (Z.shiftr a n) 1 ltac:(lia)) as E.
    change (Z.ones 1) with 1 in E. rewrite E.
    pose proof (Z.mod_pos_bound (Z.shiftr a n) (2 ^ 1) ltac:(lia)). lia. }
  - left. apply Z.shiftl_0_l.
  - by right.
Qed.

(** X9.  The creation disposition that [os_open] passes to [CreateFile]
    is decided by three flags: with [O_CREAT] it is [CREATE_NEW] when
    [O_EXCL] is set, else [CREATE_ALWAYS] with [O_TRUNC] and
    [OPEN_ALWAYS] without; without [O_CREAT] it is [TRUNCATE_EXISTING]
    with [O_TRUNC] and [OPEN_EXISTING] without, whatever [O_EXCL] is. *)
Theorem os_open_disposition :
  forall (file : filename) (flags mode share_flags : Z) (call : CreateFile)
         (warned : bool),
    os_open file (Int flags) (Int mode) share_flags = inl (call, warned) ->
    cf_create call
    = if has_flag flags O_CREAT then
        if has_flag flags O_EXCL then CREATE_NEW
        else if has_flag flags O_TRUNC then CREATE_ALWAYS else OPEN_ALWAYS
      else if has_flag flags O_TRUNC then TRUNCATE_EXISTING else OPEN_EXISTING.
Proof.
  intros file flags mode share_flags call warned H.
  assert (lookup_int (Z.land flags _CREATE_MASK) _CREATE_MAP
          = Some (cf_create call)) as Hlook.
  { unfold os_open in H. cbn [isinstance_int negb andb] in H.
    destruct (negb (Z.land share_flags _ =? 0)); [discriminate|].
    destruct file; cbv beta iota zeta in H;
      destruct (lookup_int (Z.land flags _ACCESS_MASK) _ACCESS_MAP);
      try discriminate;
      destruct (lookup_int (Z.land flags _CREATE_MASK) _CREATE_MAP);
      try discriminate;
      destruct (negb (Z.land flags O_CREAT =? 0)); cbv beta iota zeta in H;
      by injection H as <- <-. }
  assert (Z.land flags _CREATE_MASK
          = Z.lor (Z.lor (Z.land flags O_CREAT) (Z.land flags O_EXCL))
              (Z.land flags O_TRUNC)) as Hmask.
  { unfold _CREATE_MASK. by rewrite !Z.land_lor_distr_r. }
  rewrite Hmask in Hlook. unfold has_flag.
  remember (cf_create call) as c eqn:Ec. clear Ec H.
  destruct (land_bit flags 8 ltac:(lia)) as [Hc|Hc];
    destruct (land_bit flags 9 ltac:(lia)) as [Ht|Ht];
    destruct (land_bit flags 10 ltac:(lia)) as [He|He];
    change (Z.shiftl 1 8) with O_CREAT in Hc;
    change (Z.shiftl 1 9) with O_TRUNC in Ht;
    change (Z.shiftl 1 10) with O_EXCL in He;
    rewrite Hc, Ht, He in Hlook |- *;
    vm_compute in Hlook; injection Hlook as <-; reflexivity.
Qed.

Lemma os_open_disposition_witness :
  exists call warned,
    os_open (Str "circus.pid") (Int (Z.lor O_RDWR (Z.lor O_CREAT O_EXCL)))
      (Int 420) FILE_SHARE_VALID_FLAGS = inl (call, warned)
    /\ cf_create call = CREATE_NEW.
Proof.
  destruct (os_open (Str "circus.pid")
              (Int (Z.lor O_RDWR (Z.lor O_CREAT O_EXCL))) (Int 420)
              FILE_SHARE_VALID_FLAGS) as [[call warned]|e] eqn:E;
    [|vm_compute in E; discriminate E].
  exists call, warned. split; [reflexivity|].
  by rewrite (os_open_disposition _ _ _ _ _ _ E).
Defined.

(** X10.  The attributes that [os_open] passes to [CreateFile] hold
    [FILE_ATTRIBUTE_READONLY] exactly when [O_CREAT] is set and [mode]
    has no bit outside [0o444], and [FILE_ATTRIBUTE_NORMAL] exactly
    otherwise; the other flags do not touch these two bits. *)
Theorem os_open_readonly :
  forall (file : filename) (flags mode share_flags : Z) (call : CreateFile)
         (warned : bool),
    os_open file (Int flags) (Int mode) share_flags = inl (call, warned) ->
    let readonly :=
      has_flag flags O_CREAT && (Z.land mode (Z.lnot 292) =? 0) in
    Z.land (cf_attrib call) FILE_ATTRIBUTE_READONLY
    = (if readonly then FILE_ATTRIBUTE_READONLY else 0)
    /\ Z.land (cf_attrib call) FILE_ATTRIBUTE_NORMAL
       = (if readonly then 0 else FILE_ATTRIBUTE_NORMAL).
Proof.
  intros file flags mode share_flags call warned H readonly.
  assert (exists base,
             base = (if readonly then FILE_ATTRIBUTE_READONLY
                     else FILE_ATTRIBUTE_NORMAL)
             /\ cf_attrib call
                = or_if flags O_RANDOM
                    (or_if flags O_SEQUENTIAL
                       (or_if flags O_SHORT_LIVED
                          (or_if flags O_TEMPORARY base FILE_FLAG_DELETE_ON_CLOSE)
                          FILE_ATTRIBUTE_TEMPORARY)
                       FILE_FLAG_SEQUENTIAL_SCAN)
                    FILE_FLAG_RANDOM_ACCESS) as (base & Hbase & ->).
  { unfold os_open in H. cbn [isinstance_int negb andb] in H.
    destruct (negb (Z.land share_flags _ =? 0)); [discriminate|].
    subst readonly. unfold has_flag.
    destruct file; cbv beta iota zeta in H;
      destruct (lookup_int (Z.land flags _ACCESS_MASK) _ACCESS_MAP);
      try discriminate;
      destruct (lookup_int (Z.land flags _CREATE_MASK) _CREATE_MAP);
      try discriminate;
      destruct (negb (Z.land flags O_CREAT =? 0)); cbv beta iota zeta in H;
      injection H as <- <-; cbn [cf_attrib andb]; eexists; split;
      reflexivity. }
  assert (forall bit,
             Z.land FILE_FLAG_DELETE_ON_CLOSE bit = 0 ->
             Z.land FILE_ATTRIBUTE_TEMPORARY bit = 0 ->
             Z.land FILE_FLAG_SEQUENTIAL_SCAN bit = 0 ->
             Z.land FILE_FLAG_RANDOM_ACCESS bit = 0 ->
             Z.land (or_if flags O_RANDOM
                       (or_if flags O_SEQUENTIAL
                          (or_if flags O_SHORT_LIVED
                             (or_if flags O_TEMPORARY base
                                FILE_FLAG_DELETE_ON_CLOSE)
                             FILE_ATTRIBUTE_TEMPORARY)
                          FILE_FLAG_SEQUENTIAL_SCAN)
                       FILE_FLAG_RANDOM_ACCESS) bit = Z.land base bit)
    as Hmask.
  { intros bit H1 H2 H3 H4. unfold or_if.
    repeat match goal with
      | |- context [if ?c then _ else _] => destruct c
      end;
      rewrite ?Z.land_lor_distr_l, ?H1, ?H2, ?H3, ?H4, ?Z.lor_0_r; reflexivity. }
  rewrite !Hmask by reflexivity. rewrite Hbase.
  destruct readonly; split; reflexivity.
Qed.

Lemma os_open_readonly_witness :
  exists call warned,
    os_open (Str "circus.ini") (Int (Z.lor O_WRONLY O_CREAT)) (Int 292)
      FILE_SHARE_VALID_FLAGS = inl (call, warned)
    /\ Z.land (cf_attrib call) FILE_ATTRIBUTE_READONLY = FILE_ATTRIBUTE_READONLY.
Proof.
  destruct (os_open (Str "circus.ini") (Int (Z.lor O_WRONLY O_CREAT)) (Int 292)
              FILE_SHARE_VALID_FLAGS) as [[call warned]|e] eqn:E;
    [|vm_compute in E; discriminate E].
  exists call, warned. split; [reflexivity|].
  by destruct (os_open_readonly _ _ _ _ _ _ E) as [-> _].
Defined.

End ShareTableFacts.
